(** * GridSense firmware build: the [.env] loader [scripts/load_env.py]

    A shallow embedding of the PlatformIO pre-build script that reads the
    project's [.env] file and appends preprocessor defines to the build
    environment, together with the properties its design document states.

    Layout:
    - [Py]      the Python built-ins the script calls ([str.strip],
                [str.splitlines], [str.split], [int], [str(int)], UTF-8
                decoding of [Path.read_text]);
    - [LoadEnv] the script itself, function by function;
    - the theorems, one block per documented property. *)

From Stdlib Require Import ZArith NArith Strings.Ascii Strings.String Strings.Byte.
From Stdlib Require Import Numbers.DecimalString Numbers.DecimalZ.
From stdpp Require Import base option list gmap.
From stdpp Require strings.

Set Default Proof Using "Type".

(** ** Python built-ins *)

Module Py.

(** A Python [str] is a sequence of Unicode code points. *)
Abbreviation str := (list N).

(** ASCII literals of the script, as code points. *)
Definition lit (s : string) : str :=
  N_of_ascii <$> list_ascii_of_string s.

(** [bytes]: what the file holds on disk. *)
Definition bytes : Type := list byte.

Definition blit (s : string) : bytes := list_byte_of_string s.

(** Exceptions that the modelled calls can raise. *)
Inductive exn : Type :=
  | FileNotFoundError
  | UnicodeDecodeError
  | ValueError.

Inductive result (A : Type) : Type :=
  | Ok (a : A)
  | Raise (e : exn).
Arguments Ok {A} a.
Arguments Raise {A} e.

Definition rbind {A B} (r : result A) (k : A → result B) : result B :=
  match r with
  | Ok a => k a
  | Raise e => Raise e
  end.

Definition in_range (lo hi c : N) : bool := ((lo <=? c) && (c <=? hi))%N.

(** [str.isspace] on one code point ([_PyUnicode_IsWhitespace]). *)
Definition isspace (c : N) : bool :=
  in_range 0x09 0x0D c || in_range 0x1C 0x20 c
  || (c =? 0x85)%N || (c =? 0xA0)%N || (c =? 0x1680)%N
  || in_range 0x2000 0x200A c
  || (c =? 0x2028)%N || (c =? 0x2029)%N || (c =? 0x202F)%N
  || (c =? 0x205F)%N || (c =? 0x3000)%N.

(** Line boundaries of [str.splitlines] ([_PyUnicode_IsLinebreak]). *)
Definition is_linebreak (c : N) : bool :=
  in_range 0x0A 0x0D c || in_range 0x1C 0x1E c
  || (c =? 0x85)%N || (c =? 0x2028)%N || (c =? 0x2029)%N.

(** [s.lstrip(chars)], [s.rstrip(chars)], [s.strip(chars)]: the character
    set is given as a predicate. *)
Fixpoint lstrip_by (p : N → bool) (s : str) : str :=
  match s with
  | [] => []
  | c :: r => if p c then lstrip_by p r else s
  end.

Fixpoint rstrip_by (p : N → bool) (s : str) : str :=
  match s with
  | [] => []
  | c :: r =>
      match rstrip_by p r with
      | [] => if p c then [] else [c]
      | r' => c :: r'
      end
  end.

Definition strip_by (p : N → bool) (s : str) : str :=
  rstrip_by p (lstrip_by p s).

(** Neither end of [s] is a character of the set: what [strip_by] leaves
    as it is. *)
Definition edge_free (p : N → bool) (s : str) : bool :=
  negb (from_option p false (head s)) && negb (from_option p false (last s)).

(** [s.strip()] *)
Definition strip (s : str) : str := strip_by isspace s.

(** [s.strip(chars)] *)
Definition strip_chars (chars : str) (s : str) : str :=
  strip_by (λ c, bool_decide (c ∈ chars)) s.

(** [s.startswith(prefix)] *)
Fixpoint startswith (s prefix : str) : bool :=
  match prefix, s with
  | [], _ => true
  | p :: ps, c :: r => (c =? p)%N && startswith r ps
  | _ :: _, [] => false
  end.

(** [c in s] for a one-character string [c]. *)
Definition contains (c : N) (s : str) : bool := existsb (N.eqb c) s.

(** Truth value of a string: non-empty. *)
Definition truthy (s : str) : bool :=
  match s with [] => false | _ => true end.

(** The two pieces around the first occurrence of [sep], if any. *)
Fixpoint partition_first (sep : N) (s : str) : option (str * str) :=
  match s with
  | [] => None
  | c :: r =>
      if (c =? sep)%N then Some ([], r)
      else match partition_first sep r with
           | Some (a, b) => Some (c :: a, b)
           | None => None
           end
  end.

(** [s.split(sep, 1)] for a one-character separator. *)
Definition split1 (sep : N) (s : str) : list str :=
  match partition_first sep s with
  | Some (a, b) => [a; b]
  | None => [s]
  end.

(** [s.splitlines()]: a line ends at a line boundary, [\r\n] counts as
    one boundary, and no empty last line is produced. The flag records that
    the previous character was [\r]. *)
Fixpoint splitlines_from (after_cr : bool) (s : str) : list str :=
  match s with
  | [] => []
  | c :: r =>
      if after_cr && (c =? 0x0A)%N then splitlines_from false r
      else if is_linebreak c then [] :: splitlines_from (c =? 0x0D)%N r
      else match splitlines_from false r with
           | [] => [[c]]
           | l :: ls => (c :: l) :: ls
           end
  end.

Definition splitlines (s : str) : list str := splitlines_from false s.

(** *** Reading a text file: strict UTF-8, universal newlines *)

Definition is_cont (b : byte) : bool := in_range 0x80 0xBF (Byte.to_N b).

Definition cont_bits (b : byte) : N := (Byte.to_N b - 0x80)%N.

(** [bytes.decode("utf-8")] with [errors="strict"]: well-formed sequences
    only (no overlong forms, no surrogates, nothing above U+10FFFF). *)
Fixpoint utf8_decode (bs : bytes) : result str :=
  match bs with
  | [] => Ok []
  | b0 :: r0 =>
      let x0 := Byte.to_N b0 in
      if (x0 <? 0x80)%N then
        rbind (utf8_decode r0) (λ s, Ok (x0 :: s))
      else if in_range 0xC2 0xDF x0 then
        match r0 with
        | b1 :: r1 =>
            if is_cont b1 then
              rbind (utf8_decode r1)
                (λ s, Ok (((x0 - 0xC0) * 64 + cont_bits b1)%N :: s))
            else Raise UnicodeDecodeError
        | _ => Raise UnicodeDecodeError
        end
      else if in_range 0xE0 0xEF x0 then
        match r0 with
        | b1 :: b2 :: r2 =>
            let x1 := Byte.to_N b1 in
            if in_range (if (x0 =? 0xE0)%N then 0xA0 else 0x80)
                        (if (x0 =? 0xED)%N then 0x9F else 0xBF) x1
               && is_cont b2 then
              rbind (utf8_decode r2)
                (λ s, Ok ((((x0 - 0xE0) * 64 + cont_bits b1) * 64
                           + cont_bits b2)%N :: s))
            else Raise UnicodeDecodeError
        | _ => Raise UnicodeDecodeError
        end
      else if in_range 0xF0 0xF4 x0 then
        match r0 with
        | b1 :: b2 :: b3 :: r3 =>
            let x1 := Byte.to_N b1 in
            if in_range (if (x0 =? 0xF0)%N then 0x90 else 0x80)
                        (if (x0 =? 0xF4)%N then 0x8F else 0xBF) x1
               && is_cont b2 && is_cont b3 then
              rbind (utf8_decode r3)
                (λ s, Ok (((((x0 - 0xF0) * 64 + cont_bits b1) * 64
                            + cont_bits b2) * 64 + cont_bits b3)%N :: s))
            else Raise UnicodeDecodeError
        | _ => Raise UnicodeDecodeError
        end
      else Raise UnicodeDecodeError
  end.

(** Text mode with [newline=None]: [\r\n] and a lone [\r] are read as
    [\n]. The flag records that the previous character was [\r]. *)
Fixpoint translate_newlines (after_cr : bool) (s : str) : str :=
  match s with
  | [] => []
  | c :: r =>
      if after_cr && (c =? 0x0A)%N then translate_newlines false r
      else if (c =? 0x0D)%N then 0x0A%N :: translate_newlines true r
      else c :: translate_newlines false r
  end.

(** [Path.read_text(encoding="utf-8")] on a file holding [bs]. *)
Definition read_text (bs : bytes) : result str :=
  rbind (utf8_decode bs) (λ s, Ok (translate_newlines false s)).

(** *** [int(s)] for a string argument, base 10 *)

(** The code points with a Unicode decimal-digit value come in runs of ten
    (values 0 to 9 in order). These are the first code points of the runs
    known to [Py_UNICODE_TODECIMAL] (Unicode 14.0). *)
Definition decimal_zeros : list N :=
  [
   0x0030; 0x0660; 0x06F0; 0x07C0; 0x0966; 0x09E6; 0x0A66; 0x0AE6;
   0x0B66; 0x0BE6; 0x0C66; 0x0CE6; 0x0D66; 0x0DE6; 0x0E50; 0x0ED0;
   0x0F20; 0x1040; 0x1090; 0x17E0; 0x1810; 0x1946; 0x19D0; 0x1A80;
   0x1A90; 0x1B50; 0x1BB0; 0x1C40; 0x1C50; 0xA620; 0xA8D0; 0xA900;
   0xA9D0; 0xA9F0; 0xAA50; 0xABF0; 0xFF10; 0x104A0; 0x10D30; 0x11066;
   0x110F0; 0x11136; 0x111D0; 0x112F0; 0x11450; 0x114D0; 0x11650; 0x116C0;
   0x11730; 0x118E0; 0x11950; 0x11C50; 0x11D50; 0x11DA0; 0x16A60; 0x16AC0;
   0x16B50; 0x1D7CE; 0x1D7D8; 0x1D7E2; 0x1D7EC; 0x1D7F6; 0x1E140; 0x1E2F0;
   0x1E950; 0x1FBF0
  ]%N.

(** [Py_UNICODE_TODECIMAL] *)
Definition to_decimal (c : N) : option N :=
  (λ z, c - z)%N <$> List.find (λ z, in_range z (z + 9) c) decimal_zeros.

(** [_PyUnicode_TransformDecimalAndSpaceToASCII]: an ASCII string is
    returned as it is; otherwise non-ASCII spaces become [' '], non-ASCII
    decimal digits become ASCII digits, and the result is cut after a ['?']
    at the first character that is neither. *)
Fixpoint transform_decimal_and_space (s : str) : str :=
  match s with
  | [] => []
  | c :: r =>
      if (c <? 127)%N then c :: transform_decimal_and_space r
      else if isspace c then 0x20%N :: transform_decimal_and_space r
      else match to_decimal c with
           | Some d => (0x30 + d)%N :: transform_decimal_and_space r
           | None => [0x3F%N]
           end
  end.

Definition decimal_and_space_to_ascii (s : str) : str :=
  if forallb (λ c, c <? 128)%N s then s else transform_decimal_and_space s.

(** [Py_ISSPACE]: the six ASCII white-space characters. *)
Definition Py_ISSPACE (c : N) : bool := in_range 0x09 0x0D c || (c =? 0x20)%N.

(** Default of [sys.get_int_max_str_digits()]. *)
Definition max_str_digits : N := 4300.

(** The digit scan of [long_from_string_base]: digits and single
    underscores between them. Returns the number of digits, their value and
    the unread rest; [None] is a syntax error. [prev] is the character read
    last (0 at the start). *)
Fixpoint scan_digits (prev : N) (digits acc : N) (s : str)
  : option (N * N * str) :=
  match s with
  | [] => if (prev =? 0x5F)%N then None else Some (digits, acc, [])
  | c :: r =>
      if in_range 0x30 0x39 c then
        scan_digits c (digits + 1)%N (acc * 10 + (c - 0x30))%N r
      else if (c =? 0x5F)%N then
        if (prev =? 0x5F)%N then None else scan_digits c digits acc r
      else
        if (prev =? 0x5F)%N then None else Some (digits, acc, s)
  end.

(** [PyLong_FromString(s, &end, 10)] followed by the test that [end] is the
    end of the string. *)
Definition long_from_string (s : str) : result Z :=
  let s := lstrip_by Py_ISSPACE s in
  let signed :=
    match s with
    | c :: r =>
        if (c =? 0x2B)%N then (1%Z, r)
        else if (c =? 0x2D)%N then ((-1)%Z, r)
        else (1%Z, s)
    | [] => (1%Z, s)
    end in
  let s := signed.2 in
  if startswith s [0x5F%N] then Raise ValueError
  else match scan_digits 0 0 0 s with
       | None => Raise ValueError
       | Some (digits, acc, rest) =>
           if (digits =? 0)%N then Raise ValueError
           else if truthy (lstrip_by Py_ISSPACE rest) then Raise ValueError
           else if (max_str_digits <? digits)%N then Raise ValueError
           else Ok (signed.1 * Z.of_N acc)%Z
       end.

(** [int(s)] *)
Definition int (s : str) : result Z :=
  long_from_string (decimal_and_space_to_ascii s).

(** [str(i)], which is also what [f"{i}"] inserts. *)
Definition str_of_int (i : Z) : str :=
  lit (NilZero.string_of_int (Z.to_int i)).

End Py.

(** ** The script *)

Module LoadEnv.
Import Py.

(** Characters the script names. *)
Definition HASH : N := 0x23.       (* # *)
Definition EQUALS : N := 0x3D.     (* = *)
Definition DQUOTE : N := 0x22.     (* double quote *)
Definition SQUOTE : N := 0x27.     (* single quote *)
Definition BACKSLASH : N := 0x5C.

(** What the script finds at [project_dir / ".env"]: nothing, or a regular
    file with some content. A directory or an unreadable file at that path
    is outside the model. *)
Inductive Path : Type :=
  | Missing
  | File (content : bytes).

(** [path.exists()] *)
Definition exists_ (path : Path) : bool :=
  match path with Missing => false | File _ => true end.

(** [path.read_text(encoding="utf-8")] *)
Definition path_read_text (path : Path) : result str :=
  match path with
  | Missing => Raise FileNotFoundError
  | File bs => read_text bs
  end.

(** The dict built by the parser, [vars] in the script. *)
Abbreviation EnvTable := (gmap str str).

(** [d.get(key, default)] *)
Definition get (d : EnvTable) (key dflt : str) : str :=
  default dflt (d !! key).

(** The tail of the expression that computes the value: [.strip(D)] with
    [D] the double quote, then [.strip(S)] with [S] the single quote. *)
Definition strip_quotes (v : str) : str :=
  strip_chars [SQUOTE] (strip_chars [DQUOTE] v).

(** One iteration of the [for raw in ...] loop of [_parse_env_file]. The
    unpacking [k, v = ...] raises [ValueError] unless the list has two
    items. *)
Definition parse_line (data : EnvTable) (raw : str) : result EnvTable :=
  let line := strip raw in
  if negb (truthy line) || startswith line [HASH] then Ok data
  else if negb (contains EQUALS line) then Ok data
  else match split1 EQUALS line with
       | [k; v] =>
           let k := strip k in
           let v := strip_quotes (strip v) in
           Ok (<[k := v]> data)
       | _ => Raise ValueError
       end.

Fixpoint parse_lines (lines : list str) (data : EnvTable) : result EnvTable :=
  match lines with
  | [] => Ok data
  | raw :: rest => rbind (parse_line data raw) (parse_lines rest)
  end.

Definition _parse_env_file (path : Path) : result EnvTable :=
  let data : EnvTable := ∅ in
  if negb (exists_ path) then Ok data
  else rbind (path_read_text path)
         (λ text, parse_lines (splitlines text) data).

(** *** The build environment

    [env["CPPDEFINES"]] is a sequence of [(name, value)] pairs owned by the
    build system; the script only appends to it. A statement of the script
    is a function from the sequence so far to the sequence after it, or an
    exception. *)
Abbreviation CppDefines := (list (str * str)).

Definition Build (A : Type) : Type := CppDefines → result (A * CppDefines).

Definition ret {A} (a : A) : Build A := λ env, Ok (a, env).

Definition bind {A B} (m : Build A) (k : A → Build B) : Build B :=
  λ env, match m env with
         | Ok (a, env') => k a env'
         | Raise e => Raise e
         end.

Definition lift {A} (r : result A) : Build A :=
  λ env, match r with Ok a => Ok (a, env) | Raise e => Raise e end.

Declare Scope build_scope.
Delimit Scope build_scope with build.
Notation "'let*' x ':=' m 'in' k" := (bind m (λ x, k))
  (at level 10, x name, m at level 100, k at level 200) : build_scope.
Notation "m '>>' k" := (bind m (λ _, k))
  (at level 100, k at level 200, right associativity) : build_scope.
Local Open Scope build_scope.

(** [env.Append(CPPDEFINES=[d])] *)
Definition Append (d : str * str) : Build unit :=
  λ env, Ok (tt, env ++ [d]).

(** The f-string of [define_str]: backslash, double quote, the value,
    backslash, double quote. *)
Definition quoted (val : str) : str :=
  [BACKSLASH; DQUOTE] ++ val ++ [BACKSLASH; DQUOTE].

Definition define_str (vars : EnvTable) (key dflt : str) : Build unit :=
  let val := get vars key dflt in
  Append (key, quoted val).

Definition define_int (vars : EnvTable) (key dflt : str) : Build unit :=
  let val := get vars key dflt in
  Append (key, val).

(** [range(a, b)] *)
Definition range (a b : Z) : list Z := seqZ a (b - a).

(** [for i in l: body(i)] *)
Fixpoint for_ (l : list Z) (body : Z → Build unit) : Build unit :=
  match l with
  | [] => ret tt
  | i :: rest => body i >> for_ rest body
  end.

(** The statements of the script after its definitions, in order. *)
Definition load_env (env_path : Path) : Build unit :=
  let* vars := lift (_parse_env_file env_path) in
  let* WIFI_SLOTS_MAX :=
    lift (int (get vars (lit "WIFI_SLOTS_MAX") (lit "10"))) in
  for_ (range 1 (WIFI_SLOTS_MAX + 1)) (λ i,
    define_str vars (lit "WIFI_SSID" ++ str_of_int i) (lit "") >>
    define_str vars (lit "WIFI_PASS" ++ str_of_int i) (lit "")) >>
  let ssid_legacy := get vars (lit "WIFI_SSID") (lit "") in
  let pass_legacy := get vars (lit "WIFI_PASS") (lit "") in
  let ssid1 := get vars (lit "WIFI_SSID1") (lit "") in
  let pass1 := get vars (lit "WIFI_PASS1") (lit "") in
  define_str vars (lit "WIFI_SSID")
    (if truthy ssid_legacy then ssid_legacy else ssid1) >>
  define_str vars (lit "WIFI_PASS")
    (if truthy pass_legacy then pass_legacy else pass1) >>
  define_str vars (lit "MQTT_HOST_ONLINE")
    (get vars (lit "MQTT_HOST_ONLINE") (lit "")) >>
  define_str vars (lit "MQTT_HOST_OFFLINE")
    (get vars (lit "MQTT_HOST_OFFLINE") (lit "192.168.31.108")) >>
  define_int vars (lit "MQTT_PORT")
    (get vars (lit "MQTT_PORT") (lit "1883")) >>
  define_str vars (lit "BACKEND_BASE")
    (get vars (lit "BACKEND_BASE") (lit "")) >>
  define_str vars (lit "BACKEND_HOST")
    (get vars (lit "BACKEND_HOST") (lit "192.168.31.108")) >>
  define_int vars (lit "BACKEND_PORT")
    (get vars (lit "BACKEND_PORT") (lit "5000")) >>
  define_str vars (lit "DEVICE_ID")
    (get vars (lit "DEVICE_ID") (lit "esp32_001")).

End LoadEnv.

(** ** Vocabulary of the statements

    The design document's wording where it is compared with the script
    ([line_entry], [legacy_by_document], [strip_one_layer],
    [requested_keys]), closed forms of what the script appends, and the
    example files. *)

Module Spec.
Import Py LoadEnv.

(** The first non-whitespace character of a line, if it has one. *)
Definition first_nonspace (raw : str) : option N :=
  head (lstrip_by isspace raw).

(** Empty lines and comment lines are skipped, lines without [=] are
    skipped, any other line is split at its first [=] into a trimmed key
    and a trimmed value, whose quotes are then stripped as the script does
    it. *)
Definition line_entry (raw : str) : option (str * str) :=
  match first_nonspace raw with
  | None => None
  | Some c =>
      if (c =? HASH)%N then None
      else match partition_first EQUALS raw with
           | None => None
           | Some (k, v) => Some (strip k, strip_quotes (strip v))
           end
  end.

(** The values that the kept lines give to [key], in file order. *)
Definition values_of (key : str) (lines : list str) : list str :=
  omap (λ raw, match line_entry raw with
               | Some (k, v) => if decide (k = key) then Some v else None
               | None => None
               end) lines.

(** The legacy value as the document words it: the value of [key] when
    it is not empty, else the value of the first slot. *)
Definition legacy_by_document (vars : EnvTable) (key key1 : string) : str :=
  let v := get vars (lit key) [] in
  if truthy v then v else get vars (lit key1) [].

(** *** Closed forms of what the script appends *)

(** The name of slot [i]: [WIFI_SSID{i}] or [WIFI_PASS{i}]. *)
Definition slot_key (prefix : string) (i : Z) : str :=
  lit prefix ++ str_of_int i.

(** The defines of slots 1 to [n], in the order of the loop. *)
Definition slot_defines (vars : EnvTable) (n : Z) : CppDefines :=
  flat_map (λ i,
    [ (slot_key "WIFI_SSID" i, quoted (get vars (slot_key "WIFI_SSID" i) []));
      (slot_key "WIFI_PASS" i, quoted (get vars (slot_key "WIFI_PASS" i) [])) ])
    (seqZ 1 n).

(** The legacy value as the script registers it: the value of [key] when
    the table has the key, else the value of the first slot. *)
Definition legacy_by_script (vars : EnvTable) (key key1 : string) : str :=
  match vars !! lit key with
  | Some v => v
  | None => get vars (lit key1) []
  end.

Definition legacy_defines (vars : EnvTable) : CppDefines :=
  [ (lit "WIFI_SSID", quoted (legacy_by_script vars "WIFI_SSID" "WIFI_SSID1"));
    (lit "WIFI_PASS", quoted (legacy_by_script vars "WIFI_PASS" "WIFI_PASS1")) ].

(** The table of fixed keys with their defaults. *)
Definition fixed_defines (vars : EnvTable) : CppDefines :=
  [ (lit "MQTT_HOST_ONLINE", quoted (get vars (lit "MQTT_HOST_ONLINE") []));
    (lit "MQTT_HOST_OFFLINE",
       quoted (get vars (lit "MQTT_HOST_OFFLINE") (lit "192.168.31.108")));
    (lit "MQTT_PORT", get vars (lit "MQTT_PORT") (lit "1883"));
    (lit "BACKEND_BASE", quoted (get vars (lit "BACKEND_BASE") []));
    (lit "BACKEND_HOST",
       quoted (get vars (lit "BACKEND_HOST") (lit "192.168.31.108")));
    (lit "BACKEND_PORT", get vars (lit "BACKEND_PORT") (lit "5000"));
    (lit "DEVICE_ID", quoted (get vars (lit "DEVICE_ID") (lit "esp32_001"))) ].

(** The keys the script asks for when the slot count is [n]. *)
Definition requested_keys (n : Z) : list str :=
  flat_map (λ i, [slot_key "WIFI_SSID" i; slot_key "WIFI_PASS" i]) (seqZ 1 n)
  ++ [ lit "WIFI_SSID"; lit "WIFI_PASS" ]
  ++ [ lit "MQTT_HOST_ONLINE"; lit "MQTT_HOST_OFFLINE"; lit "MQTT_PORT";
       lit "BACKEND_BASE"; lit "BACKEND_HOST"; lit "BACKEND_PORT";
       lit "DEVICE_ID" ].

(** The default values written in the script. *)
Definition hardcoded_defaults : list str :=
  [ []; lit "192.168.31.108"; lit "1883"; lit "5000"; lit "esp32_001" ].

(** Quote characters. *)
Definition is_quote (c : N) : bool := (c =? DQUOTE)%N || (c =? SQUOTE)%N.

(** [v] is wrapped in a matching pair of the quote character [q]. *)
Definition wrapped_in (q : N) (v : str) : bool :=
  (2 <=? length v)%nat
  && bool_decide (head v = Some q) && bool_decide (last v = Some q).

(** Quote stripping as the document words it: one layer, and only a
    matching pair. *)
Definition strip_one_layer (v : str) : str :=
  if wrapped_in DQUOTE v || wrapped_in SQUOTE v
  then removelast (tail v) else v.

(** A file made of the given lines, each ended by a line feed. *)
Definition file_of_lines (lines : list bytes) : bytes :=
  flat_map (λ l, l ++ [x0a]) lines.

(** The names of a sequence of defines. *)
Definition names (defs : CppDefines) : list str := fst <$> defs.

(** Two quoted values used as examples: single quotes inside double
    quotes, and an opening double quote that is never closed. *)
Definition nested_value : str := [DQUOTE; SQUOTE] ++ lit "a" ++ [SQUOTE; DQUOTE].
Definition unmatched_value : str := [DQUOTE] ++ lit "abc".

(** A file that sets [WIFI_SSID] to nothing and gives slot 1 a name. *)
Definition empty_legacy_file : Path :=
  File (file_of_lines [blit "WIFI_SSID="; blit "WIFI_SSID1=MyNet"]).

(** A file that sets the slot count to zero and still names slot 1. *)
Definition zero_slots_file : Path :=
  File (file_of_lines [blit "WIFI_SLOTS_MAX=0"; blit "WIFI_SSID1=MyNet"]).

(** *** Vocabulary of the further properties *)

(** What a key and a value of the parsed table look like. *)
Definition well_formed_key (key : str) : Prop :=
  edge_free isspace key = true ∧ (EQUALS ∉ key) ∧ head key ≠ Some HASH.

Definition well_formed_value (v : str) : Prop :=
  edge_free (N.eqb SQUOTE) v = true.

(** The keys of the entries that the lines contribute. *)
Definition entry_keys (lines : list str) : list str :=
  omap (λ raw, fst <$> line_entry raw) lines.

(** A file made of the given lines, each ended by [eol]. *)
Definition join_lines (eol : bytes) (lines : list bytes) : bytes :=
  flat_map (λ l, l ++ eol) lines.

(** The three line endings of text files. *)
Definition line_endings : list bytes := [ [x0a]; [x0d; x0a]; [x0d] ].

(** A text without line boundary. *)
Definition one_line (t : str) : bool := forallb (λ c, negb (is_linebreak c)) t.

(** The byte-order mark, as bytes and as the code point it decodes to. *)
Definition BOM : bytes := [xef; xbb; xbf].
Definition ZWNBSP : N := 0xFEFF.

(** The keys that the script reads from the table when the slot count
    is [n]. *)
Definition keys_read (n : Z) : list str :=
  [ lit "WIFI_SLOTS_MAX"; lit "WIFI_SSID1"; lit "WIFI_PASS1" ]
  ++ requested_keys n.

End Spec.

(** ** Facts about the built-ins *)

Module PyFacts.
Import Py.

Section strip.
Variable p : N → bool.

Lemma lstrip_by_nil s : lstrip_by p s = [] ↔ forallb p s = true.
Proof.
  induction s as [|c r IH]; simpl; [done|].
  destruct (p c); simpl; [done|]. split; discriminate.
Qed.

Lemma rstrip_by_nil s : rstrip_by p s = [] ↔ forallb p s = true.
Proof.
  induction s as [|c r IH]; simpl; [done|].
  destruct (rstrip_by p r) as [|x r'] eqn:E.
  - destruct (p c); simpl; [tauto|]. split; discriminate.
  - split; [discriminate|]. intros [_ H]%andb_true_iff.
    apply IH in H. discriminate.
Qed.

Lemma lstrip_by_app s t :
  lstrip_by p (s ++ t)
  = if forallb p s then lstrip_by p t else lstrip_by p s ++ t.
Proof.
  induction s as [|c r IH]; simpl; [done|].
  destruct (p c); simpl; done.
Qed.

Lemma rstrip_by_app s t :
  rstrip_by p (s ++ t)
  = if forallb p t then rstrip_by p s else s ++ rstrip_by p t.
Proof.
  induction s as [|c r IH]; simpl.
  - destruct (forallb p t) eqn:E; [by apply rstrip_by_nil|done].
  - rewrite IH. destruct (forallb p t) eqn:E; [done|].
    destruct (r ++ rstrip_by p t) as [|x l] eqn:E'; [|done].
    apply app_eq_nil in E' as [_ E']. apply rstrip_by_nil in E'. congruence.
Qed.

Lemma lstrip_by_head s c r : lstrip_by p s = c :: r → p c = false.
Proof.
  induction s as [|x l IH]; simpl; [done|].
  destruct (p x) eqn:E; [done|]. by intros [= <- _].
Qed.

Lemma rstrip_by_last s c r : rstrip_by p s = r ++ [c] → p c = false.
Proof.
  revert r. induction s as [|x l IH]; simpl; intros r.
  - by destruct r.
  - destruct (rstrip_by p l) as [|y l'] eqn:E.
    + destruct (p x) eqn:Ex; [by destruct r|].
      destruct r as [|? [|]]; [|done..]. by intros [= <-].
    + destruct r as [|z r]; [done|]. intros [= <- H]. by apply (IH r).
Qed.

(** Stripping leaves alone the head of what [lstrip_by] returns. *)
Lemma rstrip_by_cons_keep c r :
  p c = false → ∃ r', rstrip_by p (c :: r) = c :: r'.
Proof.
  intros Hc. simpl. destruct (rstrip_by p r); rewrite ?Hc; eauto.
Qed.

Lemma strip_by_nil s : strip_by p s = [] ↔ forallb p s = true.
Proof.
  unfold strip_by. rewrite rstrip_by_nil. split.
  - intros H. apply lstrip_by_nil. destruct (lstrip_by p s) as [|c r] eqn:E; [done|].
    apply lstrip_by_head in E. simpl in H. by rewrite E in H.
  - intros H. apply lstrip_by_nil in H. by rewrite H.
Qed.

Lemma strip_by_head s : head (strip_by p s) = head (lstrip_by p s).
Proof.
  unfold strip_by. destruct (lstrip_by p s) as [|c r] eqn:E; [done|].
  apply lstrip_by_head in E.
  destruct (rstrip_by_cons_keep c r E) as [r' ->]. done.
Qed.

(** The characters removed on both sides all satisfy [p]. *)
Lemma lstrip_by_split s :
  ∃ pre, s = pre ++ lstrip_by p s ∧ forallb p pre = true.
Proof.
  induction s as [|c r (pre & IH & Hpre)]; [by exists []|]. simpl.
  destruct (p c) eqn:E; [|by exists []].
  exists (c :: pre). simpl. rewrite E, Hpre. by rewrite <-IH.
Qed.

Lemma rstrip_by_split s :
  ∃ post, s = rstrip_by p s ++ post ∧ forallb p post = true.
Proof.
  induction s as [|c r (post & IH & Hpost)]; [by exists []|]. simpl.
  destruct (rstrip_by p r) as [|x l] eqn:E.
  - simpl in IH. subst r. destruct (p c) eqn:Ec.
    + exists (c :: post). simpl. by rewrite Ec, Hpost.
    + by exists post.
  - exists post. split; [|done]. simpl. f_equal. exact IH.
Qed.

Lemma strip_by_split s :
  ∃ pre post, s = pre ++ strip_by p s ++ post
              ∧ forallb p pre = true ∧ forallb p post = true.
Proof.
  destruct (lstrip_by_split s) as (pre & Hs & Hpre).
  destruct (rstrip_by_split (lstrip_by p s)) as (post & Hl & Hpost).
  exists pre, post. unfold strip_by. by rewrite <-Hl, <-Hs.
Qed.

Lemma strip_by_app_l pre s :
  forallb p pre = true → strip_by p (pre ++ s) = strip_by p s.
Proof. intros H. unfold strip_by. by rewrite lstrip_by_app, H. Qed.

Lemma strip_by_app_r s post :
  forallb p post = true → strip_by p (s ++ post) = strip_by p s.
Proof.
  intros H. unfold strip_by. rewrite lstrip_by_app.
  destruct (forallb p s) eqn:E.
  - apply lstrip_by_nil in H as H1. apply lstrip_by_nil in E as E1.
    by rewrite H1, E1.
  - by rewrite rstrip_by_app, H.
Qed.

Lemma strip_by_edge_free s : edge_free p s = true → strip_by p s = s.
Proof.
  unfold edge_free, strip_by. intros [H1 H2]%andb_true_iff.
  destruct s as [|c r]; [done|]. simpl in H1. apply negb_true_iff in H1.
  simpl. rewrite H1.
  destruct (exists_last (l := c :: r)) as (l & x & E); [done|].
  rewrite E in *. rewrite last_snoc in H2. simpl in H2.
  apply negb_true_iff in H2. rewrite rstrip_by_app. simpl. by rewrite H2.
Qed.

Lemma strip_by_wrapped pre s post :
  forallb p pre = true → forallb p post = true → edge_free p s = true →
  strip_by p (pre ++ s ++ post) = s.
Proof.
  intros H1 H2 H3. rewrite strip_by_app_l by done.
  rewrite strip_by_app_r by done. by apply strip_by_edge_free.
Qed.

Lemma strip_by_is_edge_free s : edge_free p (strip_by p s) = true.
Proof.
  unfold edge_free. apply andb_true_iff. split; apply negb_true_iff.
  - rewrite strip_by_head. destruct (lstrip_by p s) eqn:E; [done|].
    simpl. by apply lstrip_by_head in E.
  - unfold strip_by. destruct (rstrip_by p (lstrip_by p s)) as [|c r] eqn:E; [done|].
    destruct (exists_last (l := c :: r)) as (l & x & E'); [done|].
    rewrite E' in *. rewrite last_snoc. simpl. by apply rstrip_by_last in E.
Qed.

(** Characters that [p] rejects are all kept. *)
Lemma strip_by_count c s :
  p c = false → count_occ N.eq_dec (strip_by p s) c = count_occ N.eq_dec s c.
Proof.
  intros Hc. destruct (strip_by_split s) as (pre & post & Hs & Hpre & Hpost).
  assert (∀ l, forallb p l = true → count_occ N.eq_dec l c = 0) as Hz.
  { induction l as [|x l IH]; simpl; [done|]. intros [Hx Hl]%andb_true_iff.
    destruct (N.eq_dec x c) as [->|]; [congruence|]. by apply IH. }
  rewrite Hs at 2. rewrite !count_occ_app, (Hz pre), (Hz post) by done. lia.
Qed.
End strip.

End PyFacts.

(** ** Facts about the parser *)

Module ParseFacts.
Import Py LoadEnv Spec PyFacts.

Lemma contains_app c s t : contains c (s ++ t) = contains c s || contains c t.
Proof. apply existsb_app. Qed.

Lemma contains_false_of_forallb p c l :
  p c = false → forallb p l = true → contains c l = false.
Proof.
  intros Hc. induction l as [|x l IH]; simpl; [done|].
  intros [Hx Hl]%andb_true_iff. rewrite IH by done.
  destruct (N.eqb_spec c x) as [->|]; [congruence|done].
Qed.

Lemma contains_elem_of c s : contains c s = true ↔ c ∈ s.
Proof.
  induction s as [|x l IH]; simpl.
  - split; [discriminate|]. by intros ?%not_elem_of_nil.
  - rewrite orb_true_iff, IH, elem_of_cons, N.eqb_eq. done.
Qed.

Lemma partition_first_None c s :
  partition_first c s = None ↔ contains c s = false.
Proof.
  induction s as [|x l IH]; simpl; [done|]. rewrite (N.eqb_sym c x).
  destruct (x =? c)%N; simpl; [split; discriminate|].
  destruct (partition_first c l) as [[a b]|]; [|tauto].
  split; [discriminate|]. intros H. by apply IH in H.
Qed.

Lemma partition_first_app c a b :
  contains c a = false → partition_first c (a ++ c :: b) = Some (a, b).
Proof.
  induction a as [|x l IH]; simpl.
  - by rewrite N.eqb_refl.
  - rewrite (N.eqb_sym c x). destruct (x =? c)%N; [done|]. simpl.
    intros H. by rewrite IH.
Qed.

Lemma partition_first_Some c s a b :
  partition_first c s = Some (a, b) → s = a ++ c :: b ∧ contains c a = false.
Proof.
  revert a. induction s as [|x l IH]; simpl; intros a; [done|].
  destruct (N.eqb_spec x c) as [->|Hne].
  - intros Heq. injection Heq as <- <-. done.
  - destruct (partition_first c l) as [[a' b']|]; [|done].
    intros [= <- <-]. destruct (IH a' eq_refl) as [-> H]. simpl.
    split; [done|]. rewrite H. by destruct (N.eqb_spec c x) as [->|].
Qed.

Lemma strip_app_l pre s :
  forallb isspace pre = true → strip (pre ++ s) = strip s.
Proof. apply strip_by_app_l. Qed.

Lemma strip_app_r s post :
  forallb isspace post = true → strip (s ++ post) = strip s.
Proof. apply strip_by_app_r. Qed.

(** The loop body does to the table what the document says of the line. *)
Lemma parse_line_entry data raw :
  parse_line data raw
  = Ok (match line_entry raw with
        | Some (k, v) => <[k := v]> data
        | None => data
        end).
Proof.
  unfold parse_line, line_entry, first_nonspace.
  pose proof (strip_by_head isspace raw) as Hhead. fold (strip raw) in Hhead.
  destruct (strip_by_split isspace raw) as (pre & post & Hraw & Hpre & Hpost).
  fold (strip raw) in Hraw.
  destruct (lstrip_by isspace raw) as [|c r] eqn:El; simpl in Hhead.
  { destruct (strip raw); [done|discriminate]. }
  destruct (strip raw) as [|c' line] eqn:Es; [done|].
  simpl in Hhead. injection Hhead as ->.
  assert (startswith (c :: line) [HASH] = (c =? HASH)%N) as ->.
  { simpl. destruct line; apply andb_true_r. }
  cbn [truthy negb orb head].
  destruct (c =? HASH)%N eqn:Ec; [done|].
  destruct (partition_first EQUALS (c :: line)) as [[a b]|] eqn:Ep.
  - apply partition_first_Some in Ep as Ep'. destruct Ep' as [Eline Ha].
    assert (partition_first EQUALS raw = Some (pre ++ a, b ++ post)) as ->.
    { rewrite Hraw, Eline, <-!app_assoc. simpl.
      rewrite (app_assoc pre a). apply partition_first_app.
      rewrite contains_app, Ha, orb_false_r.
      by apply (contains_false_of_forallb isspace). }
    assert (contains EQUALS (c :: line) = true) as ->.
    { rewrite Eline, contains_app. simpl. apply orb_true_r. }
    unfold split1. rewrite Ep. cbn [negb].
    by rewrite strip_app_l, strip_app_r.
  - apply partition_first_None in Ep as Ep'. rewrite Ep'. cbn [negb].
    assert (partition_first EQUALS raw = None) as ->; [|done].
    apply partition_first_None. rewrite Hraw, !contains_app, Ep'.
    by rewrite !(contains_false_of_forallb isspace).
Qed.

(** The parser loop never raises. *)
Lemma parse_lines_fold lines data :
  parse_lines lines data
  = Ok (foldl (λ d raw, match line_entry raw with
                        | Some (k, v) => <[k := v]> d
                        | None => d
                        end) data lines).
Proof.
  revert data. induction lines as [|raw rest IH]; intros data; simpl; [done|].
  rewrite parse_line_entry. simpl. apply IH.
Qed.

Lemma parse_lines_app l1 l2 data :
  parse_lines (l1 ++ l2) data = rbind (parse_lines l1 data) (parse_lines l2).
Proof. rewrite !parse_lines_fold, foldl_app. simpl. by rewrite parse_lines_fold. Qed.

Lemma values_of_app key l1 l2 :
  values_of key (l1 ++ l2) = values_of key l1 ++ values_of key l2.
Proof. apply omap_app. Qed.

(** Looking a key up after the loop: the value of the last kept line with
    that key, or what the table held before. *)
Lemma parse_lines_lookup lines data key :
  ∃ tbl, parse_lines lines data = Ok tbl
         ∧ tbl !! key = match last (values_of key lines) with
                        | Some v => Some v
                        | None => data !! key
                        end.
Proof.
  rewrite parse_lines_fold. eexists. split; [done|].
  induction lines as [|raw rest IH] using rev_ind; [done|].
  rewrite foldl_app, values_of_app. simpl.
  change (values_of key [raw]) with
    (from_option (λ y, [y]) []
       match line_entry raw with
       | Some (k, v) => if decide (k = key) then Some v else None
       | None => None
       end).
  destruct (line_entry raw) as [[k v]|]; simpl.
  - destruct (decide (k = key)) as [->|Hne]; simpl.
    + by rewrite last_snoc, lookup_insert_eq.
    + by rewrite app_nil_r, lookup_insert_ne.
  - by rewrite app_nil_r.
Qed.

End ParseFacts.

(** ** Facts about the script's run *)

Module RunFacts.
Import Py LoadEnv Spec PyFacts ParseFacts.
Local Open Scope build_scope.

Lemma get_Some vars key dflt v : vars !! key = Some v → get vars key dflt = v.
Proof. unfold get. by intros ->. Qed.

Lemma get_None vars key dflt : vars !! key = None → get vars key dflt = dflt.
Proof. unfold get. by intros ->. Qed.

(** Passing [vars.get(key, d)] as the default changes nothing. *)
Lemma get_get vars key dflt :
  get vars key (get vars key dflt) = get vars key dflt.
Proof. unfold get. by destruct (vars !! key). Qed.

(** The default computed for a legacy key is used only when the key is
    absent from the table. *)
Lemma get_legacy vars (key key1 : string) :
  get vars (lit key)
    (if truthy (get vars (lit key) []) then get vars (lit key) []
     else get vars (lit key1) [])
  = legacy_by_script vars key key1.
Proof.
  unfold legacy_by_script, get. destruct (vars !! lit key) as [v|]; done.
Qed.

Lemma for_slots vars l env :
  for_ l (λ i,
    define_str vars (lit "WIFI_SSID" ++ str_of_int i) (lit "") >>
    define_str vars (lit "WIFI_PASS" ++ str_of_int i) (lit "")) env
  = Ok (tt, env ++ flat_map (λ i,
      [ (slot_key "WIFI_SSID" i, quoted (get vars (slot_key "WIFI_SSID" i) []));
        (slot_key "WIFI_PASS" i, quoted (get vars (slot_key "WIFI_PASS" i) [])) ])
      l).
Proof.
  revert env. induction l as [|i l IH]; intros env.
  - simpl. unfold ret. by rewrite app_nil_r.
  - cbn [for_ flat_map]. unfold bind at 1. unfold bind at 1.
    unfold define_str at 1 2, Append. rewrite IH.
    by rewrite <-!app_assoc.
Qed.

(** The script's run in closed form: it raises where the parser or [int]
    raises, and otherwise appends the slot defines, the two legacy defines
    and the seven fixed defines, in this order. *)
Lemma load_env_run path env :
  load_env path env
  = match _parse_env_file path with
    | Raise e => Raise e
    | Ok vars =>
        match int (get vars (lit "WIFI_SLOTS_MAX") (lit "10")) with
        | Raise e => Raise e
        | Ok n =>
            Ok (tt, env ++ slot_defines vars n
                        ++ legacy_defines vars ++ fixed_defines vars)
        end
    end.
Proof.
  unfold load_env. unfold bind at 1, lift at 1.
  destruct (_parse_env_file path) as [vars|e]; [|done].
  unfold bind at 1, lift at 1.
  destruct (int _) as [n|e]; [|done].
  unfold bind at 1. rewrite for_slots.
  unfold range. replace (n + 1 - 1)%Z with n by lia.
  fold (slot_defines vars n).
  unfold bind, define_str, define_int, Append.
  rewrite !get_get, !get_legacy.
  unfold legacy_defines, fixed_defines. by rewrite <-!app_assoc.
Qed.

End RunFacts.

(** ** Facts about the names of the defines *)

Module KeyFacts.
Import Py LoadEnv Spec PyFacts ParseFacts RunFacts.

(** Replace every [lit "..."] by its code points. *)
Ltac eval_lits :=
  repeat match goal with
         | |- context [lit ?s] =>
             let v := eval vm_compute in (lit s) in change (lit s) with v
         | H : context [lit ?s] |- _ =>
             let v := eval vm_compute in (lit s) in change (lit s) with v in H
         end.

Lemma lit_inj s t : lit s = lit t → s = t.
Proof.
  unfold lit. intros H.
  apply (f_equal (fmap ascii_of_N)) in H.
  rewrite <-!list_fmap_compose in H.
  rewrite !(list_fmap_ext (ascii_of_N ∘ N_of_ascii) id) in H
    by (intros; apply ascii_N_embedding).
  rewrite !list_fmap_id in H.
  rewrite <-(string_of_list_ascii_of_string s), <-(string_of_list_ascii_of_string t).
  by rewrite H.
Qed.

Lemma to_int_not_nil i : Z.to_int i ≠ Decimal.Pos Decimal.Nil
                         ∧ Z.to_int i ≠ Decimal.Neg Decimal.Nil.
Proof.
  destruct i as [|q|q]; simpl; split; try discriminate;
    intros [= H]; by apply DecimalPos.Unsigned.to_uint_nonnil in H.
Qed.

Lemma str_of_int_inj i j : str_of_int i = str_of_int j → i = j.
Proof.
  unfold str_of_int. intros H%lit_inj.
  destruct (to_int_not_nil i) as [Hi1 Hi2], (to_int_not_nil j) as [Hj1 Hj2].
  pose proof (NilZero.isi _ Hi1 Hi2) as Ei.
  pose proof (NilZero.isi _ Hj1 Hj2) as Ej.
  rewrite H, Ej in Ei. injection Ei as Ei.
  rewrite <-(DecimalZ.of_to i), <-(DecimalZ.of_to j). by rewrite Ei.
Qed.

Lemma str_of_int_nonempty i : str_of_int i ≠ [].
Proof.
  unfold str_of_int. change [] with (lit ""). intros H%lit_inj.
  destruct (to_int_not_nil i) as [H1 H2].
  pose proof (NilZero.isi _ H1 H2) as E. by rewrite H in E.
Qed.

Lemma slot_key_inj prefix i j : slot_key prefix i = slot_key prefix j → i = j.
Proof. unfold slot_key. intros H%app_inv_head. by apply str_of_int_inj. Qed.

Lemma slot_key_ssid_pass i j : slot_key "WIFI_SSID" i ≠ slot_key "WIFI_PASS" j.
Proof. unfold slot_key. eval_lits. simpl. discriminate. Qed.

(** No slot name is the name of a legacy or fixed define. *)
Lemma slot_key_not_legacy_or_fixed vars i :
  (slot_key "WIFI_SSID" i ∉ names (legacy_defines vars ++ fixed_defines vars))
  ∧ (slot_key "WIFI_PASS" i ∉ names (legacy_defines vars ++ fixed_defines vars)).
Proof.
  pose proof (str_of_int_nonempty i) as Hne.
  unfold names, legacy_defines, fixed_defines, slot_key. simpl.
  rewrite !not_elem_of_cons. eval_lits. simpl.
  repeat split; try discriminate; try apply not_elem_of_nil;
    intros [= H]; done.
Qed.

Lemma elem_of_slot_defines vars n d :
  d ∈ slot_defines vars n ↔
  ∃ i, (1 ≤ i ≤ n)%Z
       ∧ (d = (slot_key "WIFI_SSID" i,
               quoted (get vars (slot_key "WIFI_SSID" i) []))
          ∨ d = (slot_key "WIFI_PASS" i,
                 quoted (get vars (slot_key "WIFI_PASS" i) []))).
Proof.
  unfold slot_defines. rewrite list_elem_of_In, in_flat_map.
  setoid_rewrite <-list_elem_of_In. setoid_rewrite elem_of_seqZ.
  setoid_rewrite elem_of_cons. setoid_rewrite elem_of_cons.
  setoid_rewrite elem_of_nil.
  split; intros (i & Hi & H); exists i; (split; [lia|]); tauto.
Qed.

Lemma slot_defines_nil vars n : (n ≤ 0)%Z → slot_defines vars n = [].
Proof. intros H. unfold slot_defines. by rewrite seqZ_nil. Qed.

End KeyFacts.

(** ** The documented properties *)

Import Py LoadEnv Spec PyFacts ParseFacts RunFacts KeyFacts.

(** *** Parsing: which lines count, and which line wins *)

Lemma line_entry_skipped raw :
  first_nonspace raw = None ∨ first_nonspace raw = Some HASH ∨ EQUALS ∉ raw →
  line_entry raw = None.
Proof.
  unfold line_entry. intros [->|[->|H]]; [done..|].
  destruct (first_nonspace raw) as [c|]; [|done].
  destruct (c =? HASH)%N; [done|].
  assert (partition_first EQUALS raw = None) as ->; [|done].
  apply partition_first_None. rewrite <-contains_elem_of in H.
  by destruct (contains EQUALS raw).
Qed.

Lemma line_entry_kept raw c k v :
  first_nonspace raw = Some c → c ≠ HASH →
  raw = k ++ EQUALS :: v → EQUALS ∉ k →
  line_entry raw = Some (strip k, strip_quotes (strip v)).
Proof.
  unfold line_entry. intros -> Hc -> Hk.
  apply N.eqb_neq in Hc as ->.
  rewrite partition_first_app; [done|].
  rewrite <-contains_elem_of in Hk. by destruct (contains EQUALS k).
Qed.

(** C1. The parser skips blank lines, lines whose first non-whitespace
    character is [#] and lines without [=]; it splits every other line at
    its first [=] into a trimmed key and a trimmed (then quote-stripped)
    value; and for every key the table holds the value of the last kept
    line with that key, so that of two kept lines with one key the later
    one is the one looked up. *)
Theorem C1_parse_skips_splits_and_last_line_wins :
  (∀ (data : EnvTable) raw,
     first_nonspace raw = None ∨ first_nonspace raw = Some HASH
     ∨ EQUALS ∉ raw →
     parse_line data raw = Ok data)
  ∧ (∀ (data : EnvTable) raw c k v,
       first_nonspace raw = Some c → c ≠ HASH →
       raw = k ++ EQUALS :: v → EQUALS ∉ k →
       parse_line data raw = Ok (<[strip k := strip_quotes (strip v)]> data))
  ∧ (∀ bs text key,
       read_text bs = Ok text →
       ∃ tbl : EnvTable,
         _parse_env_file (File bs) = Ok tbl
         ∧ tbl !! key = last (values_of key (splitlines text)))
  ∧ (∀ l1 raw1 l2 raw2 l3 key v1 v2,
       line_entry raw1 = Some (key, v1) →
       line_entry raw2 = Some (key, v2) →
       values_of key l3 = [] →
       ∃ tbl : EnvTable,
         parse_lines (l1 ++ raw1 :: l2 ++ raw2 :: l3) ∅ = Ok tbl
         ∧ tbl !! key = Some v2).
Proof.
  split; [|split; [|split]].
  - intros data raw H. rewrite parse_line_entry.
    by rewrite (line_entry_skipped raw H).
  - intros data raw c k v H1 H2 H3 H4. rewrite parse_line_entry.
    by rewrite (line_entry_kept raw c k v H1 H2 H3 H4).
  - intros bs text key Hread.
    destruct (parse_lines_lookup (splitlines text) ∅ key) as (tbl & Hp & Hl).
    exists tbl. split.
    + unfold _parse_env_file. simpl. by rewrite Hread.
    + rewrite Hl, lookup_empty. by destruct (last _).
  - intros l1 raw1 l2 raw2 l3 key v1 v2 H1 H2 H3.
    destruct (parse_lines_lookup (l1 ++ raw1 :: l2 ++ raw2 :: l3) ∅ key)
      as (tbl & Hp & Hl).
    exists tbl. split; [done|]. rewrite Hl.
    replace (l1 ++ raw1 :: l2 ++ raw2 :: l3)
      with ((l1 ++ raw1 :: l2) ++ [raw2] ++ l3)
      by (by rewrite <-app_assoc).
    rewrite !values_of_app, H3.
    assert (values_of key [raw2] = [v2]) as ->.
    { unfold values_of. simpl. rewrite H2. by rewrite decide_True. }
    by rewrite app_nil_r, last_snoc.
Qed.

Ltac not_in_str :=
  let H := fresh in
  intros H%contains_elem_of; vm_compute in H; discriminate H.

Lemma C1_witness :
  parse_line ∅ (lit "  # WIFI_SSID=x") = Ok ∅
  ∧ parse_line ∅ (lit " HOST = example.org ")
    = Ok (<[strip (lit " HOST ") := strip_quotes (strip (lit " example.org "))]> ∅)
  ∧ (∃ tbl : EnvTable,
       _parse_env_file (File (file_of_lines [blit "A=1"; blit "A=2"])) = Ok tbl
       ∧ tbl !! lit "A"
         = last (values_of (lit "A")
                   (splitlines (lit "A=1" ++ [10%N] ++ lit "A=2" ++ [10%N]))))
  ∧ (∃ tbl : EnvTable,
       parse_lines ([] ++ lit "A=1" :: [lit "B=0"] ++ lit "A=2" :: [lit "#A=3"]) ∅
       = Ok tbl
       ∧ tbl !! lit "A" = Some (lit "2")).
Proof.
  destruct C1_parse_skips_splits_and_last_line_wins as (H1 & H2 & H3 & H4).
  split; [|split; [|split]].
  - apply H1. right; left. reflexivity.
  - apply (H2 ∅ _ 72%N (lit " HOST ") (lit " example.org "));
      [reflexivity|discriminate|reflexivity|not_in_str].
  - apply H3. reflexivity.
  - apply (H4 [] _ _ _ _ _ (lit "1")); reflexivity.
Defined.

(** *** Quote stripping *)

Lemma edge_free_ext p q s :
  (∀ c, p c = q c) → edge_free p s = edge_free q s.
Proof.
  intros H. unfold edge_free.
  destruct (head s), (last s); simpl; by rewrite ?H.
Qed.

Lemma edge_free_mono p q s :
  (∀ c, p c = true → q c = true) →
  edge_free q s = true → edge_free p s = true.
Proof.
  intros H. unfold edge_free. rewrite !andb_true_iff, !negb_true_iff.
  intros [H1 H2]. split.
  - destruct (head s) as [c|]; [|done]. simpl in *.
    destruct (p c) eqn:E; [|done]. apply H in E. congruence.
  - destruct (last s) as [c|]; [|done]. simpl in *.
    destruct (p c) eqn:E; [|done]. apply H in E. congruence.
Qed.

Lemma edge_free_wrap p a s b :
  p a = false → p b = false → edge_free p ([a] ++ s ++ [b]) = true.
Proof.
  intros Ha Hb. unfold edge_free. rewrite app_assoc, last_snoc. simpl.
  by rewrite Ha, Hb.
Qed.

Lemma in_singleton_eqb (q c : N) : bool_decide (c ∈ [q]) = (q =? c)%N.
Proof.
  destruct (N.eqb_spec q c) as [->|Hne].
  - apply bool_decide_eq_true. by left.
  - apply bool_decide_eq_false. rewrite list_elem_of_singleton. congruence.
Qed.

Lemma in_singleton_is_quote q c :
  q = DQUOTE ∨ q = SQUOTE → bool_decide (c ∈ [q]) = true → is_quote c = true.
Proof.
  rewrite in_singleton_eqb. intros Hq Hc%N.eqb_eq. subst c.
  by destruct Hq as [->| ->].
Qed.

Lemma forallb_in_singleton (q : N) l :
  forallb (λ c, bool_decide (c ∈ [q])) l = true → Forall (eq q) l.
Proof.
  induction l as [|x l IH]; simpl; [by constructor|].
  intros [Hx Hl]%andb_true_iff. constructor; [|by apply IH].
  rewrite in_singleton_eqb in Hx. by apply N.eqb_eq in Hx.
Qed.

Lemma strip_chars_edge_free q v :
  q = DQUOTE ∨ q = SQUOTE → edge_free is_quote v = true →
  strip_chars [q] v = v.
Proof.
  intros Hq Hv. apply strip_by_edge_free.
  eapply edge_free_mono; [|exact Hv]. intros c. by apply in_singleton_is_quote.
Qed.

Lemma strip_quotes_edge_free v :
  edge_free is_quote v = true → strip_quotes v = v.
Proof.
  intros Hv. unfold strip_quotes.
  rewrite (strip_chars_edge_free DQUOTE) by auto.
  by apply strip_chars_edge_free; auto.
Qed.

Lemma strip_chars_other (q q' : N) inner :
  q ≠ q' → strip_chars [q] ([q'] ++ inner ++ [q']) = [q'] ++ inner ++ [q'].
Proof.
  intros Hne. apply strip_by_edge_free.
  apply edge_free_wrap; rewrite in_singleton_eqb; by apply N.eqb_neq.
Qed.

Lemma strip_chars_same (q : N) pre inner post :
  Forall (eq q) pre → Forall (eq q) post →
  edge_free (λ c, bool_decide (c ∈ [q])) inner = true →
  strip_chars [q] (pre ++ inner ++ post) = inner.
Proof.
  intros Hpre Hpost Hin. apply strip_by_wrapped; [| |done].
  - apply forallb_forall. intros c Hc%list_elem_of_In.
    rewrite Forall_forall in Hpre. rewrite <-(Hpre _ Hc).
    apply bool_decide_eq_true. by left.
  - apply forallb_forall. intros c Hc%list_elem_of_In.
    rewrite Forall_forall in Hpost. rewrite <-(Hpost _ Hc).
    apply bool_decide_eq_true. by left.
Qed.

(** One matching pair around a content with no quote at its ends. *)
Lemma strip_quotes_one_layer q inner :
  q = DQUOTE ∨ q = SQUOTE → edge_free is_quote inner = true →
  strip_quotes ([q] ++ inner ++ [q]) = inner.
Proof.
  intros [->| ->] Hin; unfold strip_quotes.
  - rewrite (strip_chars_same DQUOTE [DQUOTE] inner [DQUOTE]).
    + by apply strip_chars_edge_free; auto.
    + by repeat constructor.
    + by repeat constructor.
    + eapply edge_free_mono; [|exact Hin].
      intros c. apply in_singleton_is_quote. auto.
  - rewrite (strip_chars_other DQUOTE SQUOTE) by done.
    apply (strip_chars_same SQUOTE [SQUOTE] inner [SQUOTE]).
    + by repeat constructor.
    + by repeat constructor.
    + eapply edge_free_mono; [|exact Hin].
      intros c. apply in_singleton_is_quote. auto.
Qed.

(** C2, as the script has it. After whitespace trimming the script
    strips every leading and trailing double quote and then every leading
    and trailing single quote, paired or not. So a value with no quote at
    either end is unchanged; a value in one matching pair of quotes whose
    content has no quote at either end loses that pair; single quotes
    around double quotes keep the inner double quotes; double quotes around
    single quotes lose both layers. *)
Theorem C2_quotes_stripped_at_both_ends :
  (∀ v, ∃ d1 s1 s2 d2,
     v = d1 ++ s1 ++ strip_quotes v ++ s2 ++ d2
     ∧ Forall (eq DQUOTE) (d1 ++ d2) ∧ Forall (eq SQUOTE) (s1 ++ s2)
     ∧ edge_free (N.eqb SQUOTE) (strip_quotes v) = true
     ∧ edge_free (N.eqb DQUOTE) (s1 ++ strip_quotes v ++ s2) = true)
  ∧ (∀ v, edge_free is_quote v = true → strip_quotes v = v)
  ∧ (∀ q inner,
       q = DQUOTE ∨ q = SQUOTE → edge_free is_quote inner = true →
       strip_quotes ([q] ++ inner ++ [q]) = inner)
  ∧ (∀ inner,
       strip_quotes ([SQUOTE; DQUOTE] ++ inner ++ [DQUOTE; SQUOTE])
       = [DQUOTE] ++ inner ++ [DQUOTE])
  ∧ (∀ inner,
       edge_free is_quote inner = true →
       strip_quotes ([DQUOTE; SQUOTE] ++ inner ++ [SQUOTE; DQUOTE]) = inner)
  ∧ (∀ (data : EnvTable) raw c k v,
       first_nonspace raw = Some c → c ≠ HASH →
       raw = k ++ EQUALS :: v → EQUALS ∉ k →
       parse_line data raw = Ok (<[strip k := strip_quotes (strip v)]> data)).
Proof.
  split; [|split; [|split; [|split; [|split]]]].
  - intros v. unfold strip_quotes.
    destruct (strip_by_split (λ c, bool_decide (c ∈ [DQUOTE])) v)
      as (d1 & d2 & Hv & Hd1 & Hd2).
    fold (strip_chars [DQUOTE] v) in Hv.
    destruct (strip_by_split (λ c, bool_decide (c ∈ [SQUOTE]))
                (strip_chars [DQUOTE] v)) as (s1 & s2 & Hw & Hs1 & Hs2).
    fold (strip_chars [SQUOTE] (strip_chars [DQUOTE] v)) in Hw.
    exists d1, s1, s2, d2. repeat split.
    + rewrite Hv at 1. rewrite Hw at 1. by rewrite <-!app_assoc.
    + apply Forall_app; split; by apply forallb_in_singleton.
    + apply Forall_app; split; by apply forallb_in_singleton.
    + rewrite <-(edge_free_ext _ _ _ (in_singleton_eqb SQUOTE)).
      apply strip_by_is_edge_free.
    + rewrite <-Hw, <-(edge_free_ext _ _ _ (in_singleton_eqb DQUOTE)).
      apply strip_by_is_edge_free.
  - apply strip_quotes_edge_free.
  - apply strip_quotes_one_layer.
  - intros inner. unfold strip_quotes.
    change ([SQUOTE; DQUOTE] ++ inner ++ [DQUOTE; SQUOTE])
      with ([SQUOTE] ++ ([DQUOTE] ++ inner ++ [DQUOTE; SQUOTE])).
    replace ([DQUOTE] ++ inner ++ [DQUOTE; SQUOTE])
      with (([DQUOTE] ++ inner ++ [DQUOTE]) ++ [SQUOTE])
      by (by rewrite <-!app_assoc).
    rewrite (strip_chars_other DQUOTE SQUOTE) by done.
    apply (strip_chars_same SQUOTE [SQUOTE] _ [SQUOTE]).
    + by repeat constructor.
    + by repeat constructor.
    + apply edge_free_wrap; by rewrite in_singleton_eqb.
  - intros inner Hin. unfold strip_quotes.
    change ([DQUOTE; SQUOTE] ++ inner ++ [SQUOTE; DQUOTE])
      with ([DQUOTE] ++ ([SQUOTE] ++ inner ++ [SQUOTE; DQUOTE])).
    replace ([SQUOTE] ++ inner ++ [SQUOTE; DQUOTE])
      with (([SQUOTE] ++ inner ++ [SQUOTE]) ++ [DQUOTE])
      by (by rewrite <-!app_assoc).
    rewrite (strip_chars_same DQUOTE [DQUOTE] _ [DQUOTE]).
    + apply (strip_chars_same SQUOTE [SQUOTE] _ [SQUOTE]).
      * by repeat constructor.
      * by repeat constructor.
      * eapply edge_free_mono; [|exact Hin].
        intros c. apply in_singleton_is_quote. auto.
    + by repeat constructor.
    + by repeat constructor.
    + apply edge_free_wrap; by rewrite in_singleton_eqb.
  - intros data raw c k v H1 H2 H3 H4. rewrite parse_line_entry.
    by rewrite (line_entry_kept raw c k v H1 H2 H3 H4).
Qed.

Lemma C2_witness :
  strip_quotes (lit "a'b") = lit "a'b"
  ∧ strip_quotes ([SQUOTE] ++ lit "pass word" ++ [SQUOTE]) = lit "pass word"
  ∧ strip_quotes ([DQUOTE; SQUOTE] ++ lit "a" ++ [SQUOTE; DQUOTE]) = lit "a"
  ∧ parse_line ∅ (lit "K = " ++ [DQUOTE] ++ lit "v" ++ [DQUOTE])
    = Ok (<[strip (lit "K ")
            := strip_quotes (strip (lit " " ++ [DQUOTE] ++ lit "v" ++ [DQUOTE]))]> ∅).
Proof.
  destruct C2_quotes_stripped_at_both_ends as (_ & H2 & H3 & _ & H5 & H6).
  split; [|split; [|split]].
  - apply H2. reflexivity.
  - apply H3; [by right|reflexivity].
  - apply H5. reflexivity.
  - apply (H6 ∅ _ 75%N (lit "K ") (lit " " ++ [DQUOTE] ++ lit "v" ++ [DQUOTE]));
      [reflexivity|discriminate|reflexivity|not_in_str].
Defined.

(** The values at which the one-layer reading and the script part: the
    script takes both layers off [nested_value] and takes the lone quote
    off [unmatched_value]. *)
Lemma C2_counterexample :
  parse_line ∅ (lit "K=" ++ nested_value) = Ok {[ lit "K" := lit "a" ]}
  ∧ strip_one_layer (strip nested_value) = [SQUOTE] ++ lit "a" ++ [SQUOTE]
  ∧ strip_quotes (strip nested_value) ≠ strip_one_layer (strip nested_value)
  ∧ parse_line ∅ (lit "K=" ++ unmatched_value) = Ok {[ lit "K" := lit "abc" ]}
  ∧ strip_one_layer (strip unmatched_value) = unmatched_value
  ∧ strip_quotes (strip unmatched_value) ≠ strip_one_layer (strip unmatched_value).
Proof.
  repeat split; try (vm_compute; reflexivity); vm_compute; discriminate.
Qed.

(** *** Exceptions *)

Lemma int_raises_ValueError s e : int s = Raise e → e = ValueError.
Proof.
  unfold int, long_from_string.
  repeat match goal with
         | |- context [if ?b then _ else _] => destruct b
         | |- context [match ?x with _ => _ end] => destruct x
         end; congruence.
Qed.

Lemma parse_readable path :
  path = Missing ∨ (∃ bs text, path = File bs ∧ read_text bs = Ok text) →
  ∃ vars : EnvTable, _parse_env_file path = Ok vars.
Proof.
  intros [->|(bs & text & -> & Hread)].
  - by exists ∅.
  - unfold _parse_env_file. simpl. rewrite Hread. simpl.
    rewrite parse_lines_fold. eauto.
Qed.

Lemma parse_undecodable bs e :
  read_text bs = Raise e → _parse_env_file (File bs) = Raise e.
Proof. intros H. unfold _parse_env_file. simpl. by rewrite H. Qed.

(** C3, as the script has it. The script has no exception handling and
    reads the slot count with [int]. It completes whenever the file is
    missing or is valid UTF-8 and the value of [WIFI_SLOTS_MAX] is absent
    or accepted by [int]; a value that [int] rejects raises [ValueError]
    and a file that is not valid UTF-8 raises [UnicodeDecodeError]. The
    values of the integer defines [MQTT_PORT] and [BACKEND_PORT] are never
    parsed: the text in the table is registered as it is. *)
Theorem C3_raises_only_on_bad_encoding_or_bad_slot_count :
  (∀ path,
     path = Missing ∨ (∃ bs text, path = File bs ∧ read_text bs = Ok text) →
     ∃ vars : EnvTable, _parse_env_file path = Ok vars)
  ∧ (∀ path env (vars : EnvTable) n,
       _parse_env_file path = Ok vars →
       int (get vars (lit "WIFI_SLOTS_MAX") (lit "10")) = Ok n →
       ∃ defs, load_env path env = Ok (tt, env ++ defs)
               ∧ (lit "MQTT_PORT", get vars (lit "MQTT_PORT") (lit "1883")) ∈ defs
               ∧ (lit "BACKEND_PORT", get vars (lit "BACKEND_PORT") (lit "5000")) ∈ defs)
  ∧ (∀ path env (vars : EnvTable) e,
       _parse_env_file path = Ok vars →
       int (get vars (lit "WIFI_SLOTS_MAX") (lit "10")) = Raise e →
       load_env path env = Raise ValueError)
  ∧ (∀ bs env e,
       read_text bs = Raise e → load_env (File bs) env = Raise e).
Proof.
  split; [|split; [|split]].
  - apply parse_readable.
  - intros path env vars n Hp Hn. eexists. rewrite load_env_run, Hp, Hn.
    split; [done|]. rewrite !elem_of_app. unfold fixed_defines.
    split; right; right; rewrite !elem_of_cons; tauto.
  - intros path env vars e Hp He. rewrite load_env_run, Hp, He.
    by rewrite (int_raises_ValueError _ _ He).
  - intros bs env e H. by rewrite load_env_run, (parse_undecodable bs e H).
Qed.

Lemma C3_witness :
  (∃ vars : EnvTable, _parse_env_file (File (blit "MQTT_PORT=mqtt")) = Ok vars)
  ∧ (∃ defs,
       load_env (File (blit "MQTT_PORT=mqtt")) [] = Ok (tt, [] ++ defs)
       ∧ (lit "MQTT_PORT",
          get {[ lit "MQTT_PORT" := lit "mqtt" ]} (lit "MQTT_PORT") (lit "1883")) ∈ defs
       ∧ (lit "BACKEND_PORT",
          get {[ lit "MQTT_PORT" := lit "mqtt" ]} (lit "BACKEND_PORT") (lit "5000")) ∈ defs)
  ∧ load_env (File (blit "WIFI_SLOTS_MAX=ten")) [] = Raise ValueError
  ∧ load_env (File [xc3; x28]) [] = Raise UnicodeDecodeError.
Proof.
  destruct C3_raises_only_on_bad_encoding_or_bad_slot_count
    as (H1 & H2 & H3 & H4).
  split; [|split; [|split]].
  - apply H1. right. exists (blit "MQTT_PORT=mqtt"), (lit "MQTT_PORT=mqtt").
    split; reflexivity.
  - apply (H2 _ _ _ 10%Z); reflexivity.
  - apply (H3 _ _ {[ lit "WIFI_SLOTS_MAX" := lit "ten" ]} ValueError);
      reflexivity.
  - apply H4. reflexivity.
Defined.

(** A slot count that is not a number, and a file that is not UTF-8. *)
Lemma C3_counterexample :
  load_env (File (blit "WIFI_SLOTS_MAX=abc")) [] = Raise ValueError
  ∧ load_env (File [xff]) [] = Raise UnicodeDecodeError.
Proof. split; vm_compute; reflexivity. Qed.

(** *** WiFi slots *)

Lemma slot_define_only vars n prefix i v :
  prefix = "WIFI_SSID"%string ∨ prefix = "WIFI_PASS"%string →
  (slot_key prefix i, v)
    ∈ slot_defines vars n ++ legacy_defines vars ++ fixed_defines vars →
  (1 ≤ i ≤ n)%Z ∧ v = quoted (get vars (slot_key prefix i) []).
Proof.
  intros Hprefix. rewrite elem_of_app. intros [H|H].
  - apply elem_of_slot_defines in H as (j & Hj & [H|H]);
      injection H as Hk Hv; destruct Hprefix as [->| ->].
    + apply slot_key_inj in Hk as ->. by rewrite Hv.
    + symmetry in Hk. by apply slot_key_ssid_pass in Hk.
    + by apply slot_key_ssid_pass in Hk.
    + apply slot_key_inj in Hk as ->. by rewrite Hv.
  - exfalso. apply (list_elem_of_fmap_2 fst) in H. simpl in H.
    destruct (slot_key_not_legacy_or_fixed vars i) as [H1 H2].
    destruct Hprefix as [->| ->]; [by apply H1|by apply H2].
Qed.

(** C4. The slot count is [WIFI_SLOTS_MAX] read from the table, 10 when
    the key is absent. For every [i] from 1 to the count the script defines
    [WIFI_SSID{i}] and [WIFI_PASS{i}] as quoted strings holding the table's
    value, empty when the key is absent, and it defines no slot outside of
    1 .. count. With [WIFI_SLOTS_MAX=3] alone in the file, the six defines
    of slots 1 to 3 are empty strings and no further slot is defined. *)
Theorem C4_slots_one_to_slot_count :
  (∀ vars : EnvTable,
     vars !! lit "WIFI_SLOTS_MAX" = None →
     int (get vars (lit "WIFI_SLOTS_MAX") (lit "10")) = Ok 10%Z)
  ∧ (∀ path env (vars : EnvTable) n,
       _parse_env_file path = Ok vars →
       int (get vars (lit "WIFI_SLOTS_MAX") (lit "10")) = Ok n →
       ∃ defs,
         load_env path env = Ok (tt, env ++ defs)
         ∧ (∀ i, (1 ≤ i ≤ n)%Z →
              (slot_key "WIFI_SSID" i,
               quoted (get vars (slot_key "WIFI_SSID" i) [])) ∈ defs
              ∧ (slot_key "WIFI_PASS" i,
                 quoted (get vars (slot_key "WIFI_PASS" i) [])) ∈ defs)
         ∧ (∀ prefix i v,
              prefix = "WIFI_SSID"%string ∨ prefix = "WIFI_PASS"%string →
              (slot_key prefix i, v) ∈ defs →
              (1 ≤ i ≤ n)%Z ∧ v = quoted (get vars (slot_key prefix i) [])))
  ∧ (∀ env,
       load_env (File (blit "WIFI_SLOTS_MAX=3")) env
       = Ok (tt, env ++
           [ (lit "WIFI_SSID1", quoted []); (lit "WIFI_PASS1", quoted []);
             (lit "WIFI_SSID2", quoted []); (lit "WIFI_PASS2", quoted []);
             (lit "WIFI_SSID3", quoted []); (lit "WIFI_PASS3", quoted []);
             (lit "WIFI_SSID", quoted []); (lit "WIFI_PASS", quoted []);
             (lit "MQTT_HOST_ONLINE", quoted []);
             (lit "MQTT_HOST_OFFLINE", quoted (lit "192.168.31.108"));
             (lit "MQTT_PORT", lit "1883");
             (lit "BACKEND_BASE", quoted []);
             (lit "BACKEND_HOST", quoted (lit "192.168.31.108"));
             (lit "BACKEND_PORT", lit "5000");
             (lit "DEVICE_ID", quoted (lit "esp32_001")) ])).
Proof.
  split; [|split].
  - intros vars H. by rewrite (get_None _ _ _ H).
  - intros path env vars n Hp Hn. eexists. rewrite load_env_run, Hp, Hn.
    split; [done|]. split.
    + intros i Hi. rewrite !elem_of_app, !elem_of_slot_defines.
      split; left; exists i; auto.
    + intros prefix i v. apply slot_define_only.
  - intros env. rewrite load_env_run.
    assert (_parse_env_file (File (blit "WIFI_SLOTS_MAX=3"))
            = Ok {[ lit "WIFI_SLOTS_MAX" := lit "3" ]}) as -> by reflexivity.
    assert (int (get {[ lit "WIFI_SLOTS_MAX" := lit "3" ]}
                   (lit "WIFI_SLOTS_MAX") (lit "10")) = Ok 3%Z) as ->
      by reflexivity.
    do 3 f_equal.
Qed.

Lemma C4_witness :
  int (get ∅ (lit "WIFI_SLOTS_MAX") (lit "10")) = Ok 10%Z
  ∧ ∃ defs,
      load_env (File (blit "WIFI_SLOTS_MAX=2")) [] = Ok (tt, [] ++ defs)
      ∧ (∀ i, (1 ≤ i ≤ 2)%Z →
           (slot_key "WIFI_SSID" i,
            quoted (get {[ lit "WIFI_SLOTS_MAX" := lit "2" ]}
                      (slot_key "WIFI_SSID" i) [])) ∈ defs
           ∧ (slot_key "WIFI_PASS" i,
              quoted (get {[ lit "WIFI_SLOTS_MAX" := lit "2" ]}
                        (slot_key "WIFI_PASS" i) [])) ∈ defs)
      ∧ (∀ prefix i v,
           prefix = "WIFI_SSID"%string ∨ prefix = "WIFI_PASS"%string →
           (slot_key prefix i, v) ∈ defs →
           (1 ≤ i ≤ 2)%Z
           ∧ v = quoted (get {[ lit "WIFI_SLOTS_MAX" := lit "2" ]}
                           (slot_key prefix i) [])).
Proof.
  destruct C4_slots_one_to_slot_count as (H1 & H2 & _).
  split.
  - apply H1. reflexivity.
  - apply H2; reflexivity.
Defined.

(** *** The legacy pair *)

(** Every define named [key] that the script appends, when [key] is one of
    the legacy or fixed names, carries the value of that name's entry. *)
Lemma named_define_unique vars n key v :
  key ∈ names (legacy_defines vars ++ fixed_defines vars) →
  (key, v) ∈ slot_defines vars n ++ legacy_defines vars ++ fixed_defines vars →
  (key, v) ∈ legacy_defines vars ++ fixed_defines vars.
Proof.
  intros Hkey. rewrite (elem_of_app (slot_defines vars n)). intros [H|H]; [|done].
  exfalso. apply elem_of_slot_defines in H as (i & _ & [H|H]);
    injection H as -> _;
    destruct (slot_key_not_legacy_or_fixed vars i) as [H1 H2]; auto.
Qed.

(** Split a membership in the legacy and fixed defines into its nine
    cases and drop those whose name differs. *)
Ltac named_define_cases H :=
  let Hk := fresh "Hk" in
  rewrite elem_of_app in H; unfold legacy_defines, fixed_defines in H;
  rewrite !elem_of_cons, !elem_of_nil in H;
  repeat (destruct H as [H|H]); try contradiction;
  apply pair_equal_spec in H as [Hk H];
  try (apply lit_inj in Hk; discriminate Hk); clear Hk.

(** A literal name is among the legacy and fixed names. *)
Ltac named_key :=
  unfold names, legacy_defines, fixed_defines; simpl;
  rewrite !elem_of_cons; repeat (first [left; reflexivity | right]).

(** The two readings of the legacy value agree unless the table holds the
    legacy key with an empty value. *)
Lemma legacy_readings_agree (vars : EnvTable) key key1 :
  vars !! lit key ≠ Some [] →
  legacy_by_script vars key key1 = legacy_by_document vars key key1.
Proof.
  unfold legacy_by_script, legacy_by_document, get.
  destruct (vars !! lit key) as [[|c v]|]; simpl; congruence.
Qed.

(** The two examples of the document: slot 1 alone, and both keys. *)
Lemma legacy_examples :
  legacy_by_script {[ lit "WIFI_SSID1" := lit "MyNet" ]} "WIFI_SSID" "WIFI_SSID1"
  = lit "MyNet"
  ∧ legacy_by_script
      {[ lit "WIFI_SSID" := lit "Explicit"; lit "WIFI_SSID1" := lit "Slot1Net" ]}
      "WIFI_SSID" "WIFI_SSID1"
    = lit "Explicit".
Proof. split; reflexivity. Qed.

(** C5, at the input where the script departs from it. [WIFI_SSID=] puts
    the key in the table with an empty value. The script then computes the
    value of [WIFI_SSID1] as the replacement, but passes it to [define_str]
    as a default, and [define_str] looks the key up again and finds the
    empty value: the legacy define is the empty string, not [MyNet]. *)
Theorem C5_empty_legacy_value_is_not_replaced :
  _parse_env_file empty_legacy_file
  = Ok {[ lit "WIFI_SSID" := []; lit "WIFI_SSID1" := lit "MyNet" ]}
  ∧ legacy_by_document
      {[ lit "WIFI_SSID" := []; lit "WIFI_SSID1" := lit "MyNet" ]}
      "WIFI_SSID" "WIFI_SSID1"
    = lit "MyNet"
  ∧ ∀ env, ∃ defs,
      load_env empty_legacy_file env = Ok (tt, env ++ defs)
      ∧ (lit "WIFI_SSID1", quoted (lit "MyNet")) ∈ defs
      ∧ (lit "WIFI_SSID", quoted []) ∈ defs
      ∧ ∀ v, (lit "WIFI_SSID", v) ∈ defs → v = quoted [].
Proof.
  assert (_parse_env_file empty_legacy_file
          = Ok {[ lit "WIFI_SSID" := []; lit "WIFI_SSID1" := lit "MyNet" ]})
    as Hparse by reflexivity.
  split; [done|]. split; [reflexivity|].
  intros env. eexists. rewrite load_env_run, Hparse.
  set (vars := {[ lit "WIFI_SSID" := []; lit "WIFI_SSID1" := lit "MyNet" ]}).
  assert (int (get vars (lit "WIFI_SLOTS_MAX") (lit "10")) = Ok 10%Z) as ->
    by reflexivity.
  split; [done|]. split; [|split].
  - apply elem_of_app. left. apply elem_of_slot_defines.
    exists 1%Z. split; [lia|]. left. reflexivity.
  - apply elem_of_app. right. apply elem_of_app. left. by left.
  - intros v Hv. apply named_define_unique in Hv.
    + named_define_cases Hv. subst v. reflexivity.
    + named_key.
Qed.

(** *** The missing file and the fixed keys *)

(** C6. When the [.env] file does not exist the parser returns the empty
    table and raises nothing, and the script registers every define with
    its default: ten empty slots, an empty legacy pair, and the seven fixed
    keys with the defaults of the table in the document. *)
Theorem C6_missing_file_gives_defaults :
  _parse_env_file Missing = Ok ∅
  ∧ ∀ env,
      load_env Missing env
      = Ok (tt, env ++
           [
             (lit "WIFI_SSID1", quoted []); (lit "WIFI_PASS1", quoted []);
             (lit "WIFI_SSID2", quoted []); (lit "WIFI_PASS2", quoted []);
             (lit "WIFI_SSID3", quoted []); (lit "WIFI_PASS3", quoted []);
             (lit "WIFI_SSID4", quoted []); (lit "WIFI_PASS4", quoted []);
             (lit "WIFI_SSID5", quoted []); (lit "WIFI_PASS5", quoted []);
             (lit "WIFI_SSID6", quoted []); (lit "WIFI_PASS6", quoted []);
             (lit "WIFI_SSID7", quoted []); (lit "WIFI_PASS7", quoted []);
             (lit "WIFI_SSID8", quoted []); (lit "WIFI_PASS8", quoted []);
             (lit "WIFI_SSID9", quoted []); (lit "WIFI_PASS9", quoted []);
             (lit "WIFI_SSID10", quoted []); (lit "WIFI_PASS10", quoted []);
             (lit "WIFI_SSID", quoted []); (lit "WIFI_PASS", quoted []);
             (lit "MQTT_HOST_ONLINE", quoted []);
             (lit "MQTT_HOST_OFFLINE", quoted (lit "192.168.31.108"));
             (lit "MQTT_PORT", lit "1883");
             (lit "BACKEND_BASE", quoted []);
             (lit "BACKEND_HOST", quoted (lit "192.168.31.108"));
             (lit "BACKEND_PORT", lit "5000");
             (lit "DEVICE_ID", quoted (lit "esp32_001")) ]).
Proof.
  split; [reflexivity|]. intros env. rewrite load_env_run.
  assert (_parse_env_file Missing = Ok ∅) as -> by reflexivity.
  assert (int (get ∅ (lit "WIFI_SLOTS_MAX") (lit "10")) = Ok 10%Z) as ->
    by reflexivity.
  do 3 f_equal.
Qed.

(** *** String defines and integer defines *)

(** Every define the script appends is a quoted string, except the two
    integer defines, which carry the table's text or their default bare. *)
Lemma defines_quoted_or_bare (vars : EnvTable) n key v :
  (key, v) ∈ slot_defines vars n ++ legacy_defines vars ++ fixed_defines vars →
  (key = lit "MQTT_PORT" ∧ v = get vars (lit "MQTT_PORT") (lit "1883"))
  ∨ (key = lit "BACKEND_PORT" ∧ v = get vars (lit "BACKEND_PORT") (lit "5000"))
  ∨ (key ≠ lit "MQTT_PORT" ∧ key ≠ lit "BACKEND_PORT" ∧ ∃ val, v = quoted val).
Proof.
  rewrite (elem_of_app (slot_defines vars n)). intros [H|H].
  - right; right. apply elem_of_slot_defines in H as (i & _ & [H|H]);
      injection H as -> ->; unfold slot_key;
      (split; [|split]; [eval_lits; simpl; discriminate..|eauto]).
  - rewrite elem_of_app in H. unfold legacy_defines, fixed_defines in H.
    rewrite !elem_of_cons, !elem_of_nil in H.
    repeat (destruct H as [H|H]); try contradiction;
      injection H as -> ->; try (by left); try (by right; left);
      right; right;
      (split; [|split]; [intros ?%lit_inj; discriminate..|eauto]).
Qed.

(** C7. [define_str] registers the value between two escaped double
    quotes (backslash, double quote on each side) and [define_int]
    registers it bare. In a run of the script the only defines named
    [MQTT_PORT] and [BACKEND_PORT] are bare and every other define is
    quoted; for the file [MQTT_PORT=1883] the value of [MQTT_PORT] is the
    four characters [1883]. *)
Theorem C7_string_defines_quoted_int_defines_bare :
  (∀ (vars : EnvTable) key dflt env,
     define_str vars key dflt env
     = Ok (tt, env ++ [(key, [BACKSLASH; DQUOTE] ++ get vars key dflt
                              ++ [BACKSLASH; DQUOTE])])
     ∧ define_int vars key dflt env = Ok (tt, env ++ [(key, get vars key dflt)]))
  ∧ (∀ path env (vars : EnvTable) n,
       _parse_env_file path = Ok vars →
       int (get vars (lit "WIFI_SLOTS_MAX") (lit "10")) = Ok n →
       ∃ defs,
         load_env path env = Ok (tt, env ++ defs)
         ∧ (lit "MQTT_PORT", get vars (lit "MQTT_PORT") (lit "1883")) ∈ defs
         ∧ (lit "BACKEND_PORT", get vars (lit "BACKEND_PORT") (lit "5000")) ∈ defs
         ∧ (∀ v, (lit "MQTT_PORT", v) ∈ defs →
                 v = get vars (lit "MQTT_PORT") (lit "1883"))
         ∧ (∀ v, (lit "BACKEND_PORT", v) ∈ defs →
                 v = get vars (lit "BACKEND_PORT") (lit "5000"))
         ∧ (∀ key v, (key, v) ∈ defs →
                     key ≠ lit "MQTT_PORT" → key ≠ lit "BACKEND_PORT" →
                     ∃ val, v = [BACKSLASH; DQUOTE] ++ val ++ [BACKSLASH; DQUOTE]))
  ∧ (∀ env, ∃ defs,
       load_env (File (blit "MQTT_PORT=1883")) env = Ok (tt, env ++ defs)
       ∧ (lit "MQTT_PORT", lit "1883") ∈ defs
       ∧ (∀ v, (lit "MQTT_PORT", v) ∈ defs → v = lit "1883"))
  ∧ lit "1883" ≠ [BACKSLASH; DQUOTE] ++ lit "1883" ++ [BACKSLASH; DQUOTE].
Proof.
  assert (∀ path env (vars : EnvTable) n,
    _parse_env_file path = Ok vars →
    int (get vars (lit "WIFI_SLOTS_MAX") (lit "10")) = Ok n →
    ∃ defs,
      load_env path env = Ok (tt, env ++ defs)
      ∧ (lit "MQTT_PORT", get vars (lit "MQTT_PORT") (lit "1883")) ∈ defs
      ∧ (lit "BACKEND_PORT", get vars (lit "BACKEND_PORT") (lit "5000")) ∈ defs
      ∧ (∀ v, (lit "MQTT_PORT", v) ∈ defs →
              v = get vars (lit "MQTT_PORT") (lit "1883"))
      ∧ (∀ v, (lit "BACKEND_PORT", v) ∈ defs →
              v = get vars (lit "BACKEND_PORT") (lit "5000"))
      ∧ (∀ key v, (key, v) ∈ defs →
                  key ≠ lit "MQTT_PORT" → key ≠ lit "BACKEND_PORT" →
                  ∃ val, v = [BACKSLASH; DQUOTE] ++ val ++ [BACKSLASH; DQUOTE]))
    as Hrun.
  { intros path env vars n Hp Hn. eexists. rewrite load_env_run, Hp, Hn.
    split; [done|]. repeat split.
    - rewrite !elem_of_app. right; right. unfold fixed_defines.
      rewrite !elem_of_cons. tauto.
    - rewrite !elem_of_app. right; right. unfold fixed_defines.
      rewrite !elem_of_cons. tauto.
    - intros v [[_ ->]|[[Hk _]|(Hk & _)]]%defines_quoted_or_bare; [done|..].
      + apply lit_inj in Hk. discriminate.
      + done.
    - intros v [[Hk _]|[[_ ->]|(_ & Hk & _)]]%defines_quoted_or_bare; [|done..].
      apply lit_inj in Hk. discriminate.
    - intros key v [[-> _]|[[-> _]|(_ & _ & val & ->)]]%defines_quoted_or_bare;
        [done..|]. intros _ _. by exists val. }
  split; [|split; [exact Hrun|split]].
  - intros vars key dflt env. split; reflexivity.
  - intros env.
    destruct (Hrun (File (blit "MQTT_PORT=1883")) env
                {[ lit "MQTT_PORT" := lit "1883" ]} 10%Z)
      as (defs & Hload & Hin & _ & Honly & _); [reflexivity..|].
    exists defs. split; [done|]. split; [exact Hin|exact Honly].
  - vm_compute. discriminate.
Qed.

Lemma C7_witness :
  ∃ defs,
    load_env (File (blit "MQTT_PORT=8883")) [] = Ok (tt, [] ++ defs)
    ∧ (lit "MQTT_PORT",
       get {[ lit "MQTT_PORT" := lit "8883" ]} (lit "MQTT_PORT") (lit "1883")) ∈ defs
    ∧ (lit "BACKEND_PORT",
       get {[ lit "MQTT_PORT" := lit "8883" ]} (lit "BACKEND_PORT") (lit "5000")) ∈ defs
    ∧ (∀ v, (lit "MQTT_PORT", v) ∈ defs →
            v = get {[ lit "MQTT_PORT" := lit "8883" ]} (lit "MQTT_PORT") (lit "1883"))
    ∧ (∀ v, (lit "BACKEND_PORT", v) ∈ defs →
            v = get {[ lit "MQTT_PORT" := lit "8883" ]} (lit "BACKEND_PORT") (lit "5000"))
    ∧ (∀ key v, (key, v) ∈ defs →
                key ≠ lit "MQTT_PORT" → key ≠ lit "BACKEND_PORT" →
                ∃ val, v = [BACKSLASH; DQUOTE] ++ val ++ [BACKSLASH; DQUOTE]).
Proof.
  destruct C7_string_defines_quoted_int_defines_bare as (_ & H & _).
  apply (H _ _ _ 10%Z); reflexivity.
Defined.

(** *** Comments *)

(** Stripping white space and quotes removes no other character. *)
Lemma strip_quotes_strip_count c v :
  isspace c = false → is_quote c = false →
  count_occ N.eq_dec (strip_quotes (strip v)) c = count_occ N.eq_dec v c.
Proof.
  intros Hs Hq. unfold strip_quotes, strip_chars, strip.
  unfold is_quote in Hq. apply orb_false_iff in Hq as [Hd Hq].
  rewrite !strip_by_count; [done|done|..];
    rewrite in_singleton_eqb, N.eqb_sym; done.
Qed.

(** C8. A [#] inside a value is part of the value: the line
    [KEY=<quote>a#b<quote>] gives [KEY] the value [a#b], and so does any
    kept line whose value is a quoted text containing [#]. Only a [#] that
    is the first non-whitespace character of the line makes the line a
    comment: a line with an [=] whose first non-whitespace character is not
    [#] is kept, and its value has as many [#] as the text after the first
    [=]. *)
Theorem C8_hash_inside_value_is_kept :
  parse_line ∅ (lit "KEY=" ++ [DQUOTE] ++ lit "a#b" ++ [DQUOTE])
  = Ok {[ lit "KEY" := lit "a#b" ]}
  ∧ (∀ (data : EnvTable) k q a b ws1 ws2 c,
       first_nonspace
         (k ++ EQUALS :: ws1 ++ [q] ++ (a ++ HASH :: b) ++ [q] ++ ws2) = Some c →
       c ≠ HASH → EQUALS ∉ k →
       q = DQUOTE ∨ q = SQUOTE →
       forallb isspace ws1 = true → forallb isspace ws2 = true →
       edge_free is_quote (a ++ HASH :: b) = true →
       parse_line data
         (k ++ EQUALS :: ws1 ++ [q] ++ (a ++ HASH :: b) ++ [q] ++ ws2)
       = Ok (<[strip k := a ++ HASH :: b]> data))
  ∧ (∀ (data : EnvTable) raw c,
       first_nonspace raw = Some c → c ≠ HASH → EQUALS ∈ raw →
       ∃ k v,
         raw = k ++ EQUALS :: v ∧ (EQUALS ∉ k)
         ∧ parse_line data raw = Ok (<[strip k := strip_quotes (strip v)]> data)
         ∧ count_occ N.eq_dec (strip_quotes (strip v)) HASH
           = count_occ N.eq_dec v HASH)
  ∧ (∀ (data : EnvTable) raw,
       first_nonspace raw = Some HASH → parse_line data raw = Ok data).
Proof.
  split; [reflexivity|split; [|split]].
  - intros data k q a b ws1 ws2 c Hc Hne Hk Hq Hws1 Hws2 Hin.
    rewrite parse_line_entry.
    rewrite (line_entry_kept _ c k _ Hc Hne eq_refl Hk).
    replace (ws1 ++ [q] ++ (a ++ HASH :: b) ++ [q] ++ ws2)
      with (ws1 ++ ([q] ++ (a ++ HASH :: b) ++ [q]) ++ ws2)
      by (by rewrite <-!app_assoc).
    unfold strip. rewrite strip_by_wrapped; [|done|done|].
    + by rewrite strip_quotes_one_layer.
    + apply edge_free_wrap; by destruct Hq as [->| ->].
  - intros data raw c Hc Hne Hin.
    destruct (partition_first EQUALS raw) as [[k v]|] eqn:Ep.
    + apply partition_first_Some in Ep as [-> Hk]. exists k, v.
      assert (EQUALS ∉ k) as Hk'.
      { rewrite <-contains_elem_of. by rewrite Hk. }
      split; [done|]. split; [done|]. split.
      * rewrite parse_line_entry.
        by rewrite (line_entry_kept _ c k v Hc Hne eq_refl Hk').
      * by apply strip_quotes_strip_count.
    + apply partition_first_None in Ep. apply contains_elem_of in Hin.
      congruence.
  - intros data raw H. rewrite parse_line_entry.
    rewrite line_entry_skipped; auto.
Qed.

Lemma C8_witness :
  parse_line ∅
    (lit " URL " ++ EQUALS :: lit " " ++ [SQUOTE] ++ (lit "http://h/" ++ HASH :: lit "frag")
       ++ [SQUOTE] ++ lit " ")
  = Ok (<[strip (lit " URL ") := lit "http://h/" ++ HASH :: lit "frag"]> ∅)
  ∧ (∃ k v,
       lit "A=b #c" = k ++ EQUALS :: v ∧ (EQUALS ∉ k)
       ∧ parse_line ∅ (lit "A=b #c") = Ok (<[strip k := strip_quotes (strip v)]> ∅)
       ∧ count_occ N.eq_dec (strip_quotes (strip v)) HASH
         = count_occ N.eq_dec v HASH)
  ∧ parse_line ∅ (lit "#A=b") = Ok ∅.
Proof.
  destruct C8_hash_inside_value_is_kept as (_ & H2 & H3 & H4).
  split; [|split].
  - apply (H2 ∅ _ _ _ _ _ _ 85%N);
      [reflexivity|discriminate|not_in_str|by right|reflexivity..].
  - apply (H3 ∅ _ 65%N); [reflexivity|discriminate|].
    apply contains_elem_of. reflexivity.
  - apply H4. reflexivity.
Defined.

(** *** Every requested key is defined *)

Lemma names_slot_defines vars n :
  names (slot_defines vars n)
  = flat_map (λ i, [slot_key "WIFI_SSID" i; slot_key "WIFI_PASS" i]) (seqZ 1 n).
Proof.
  unfold names, slot_defines. induction (seqZ 1 n) as [|i l IH]; [done|].
  simpl. do 2 f_equal. exact IH.
Qed.

Lemma names_run vars n :
  names (slot_defines vars n ++ legacy_defines vars ++ fixed_defines vars)
  = requested_keys n.
Proof.
  unfold names at 1. rewrite fmap_app. fold (names (slot_defines vars n)).
  by rewrite names_slot_defines.
Qed.

(** What [get] returns is a value of the table or the default. *)
Lemma get_source (vars : EnvTable) key dflt :
  (∃ k, vars !! k = Some (get vars key dflt)) ∨ get vars key dflt = dflt.
Proof.
  unfold get. destruct (vars !! key) as [v|] eqn:E; [left|by right].
  by exists key.
Qed.

Lemma define_source (vars : EnvTable) n key v :
  (key, v) ∈ slot_defines vars n ++ legacy_defines vars ++ fixed_defines vars →
  ∃ val, (v = val ∨ v = quoted val)
         ∧ ((∃ k, vars !! k = Some val) ∨ val ∈ hardcoded_defaults).
Proof.
  assert (∀ k d, d ∈ hardcoded_defaults →
            (∃ k', vars !! k' = Some (get vars k d))
            ∨ get vars k d ∈ hardcoded_defaults) as Hget.
  { intros k d Hd. destruct (get_source vars k d) as [H| ->]; auto. }
  assert (∀ k k1 : string,
            (∃ k', vars !! k' = Some (legacy_by_script vars k k1))
            ∨ legacy_by_script vars k k1 ∈ hardcoded_defaults) as Hlegacy.
  { intros k k1. unfold legacy_by_script.
    destruct (vars !! lit k) as [v'|] eqn:E; [left; by exists (lit k)|].
    apply Hget. by left. }
  assert ([] ∈ hardcoded_defaults
          ∧ lit "192.168.31.108" ∈ hardcoded_defaults
          ∧ lit "1883" ∈ hardcoded_defaults
          ∧ lit "5000" ∈ hardcoded_defaults
          ∧ lit "esp32_001" ∈ hardcoded_defaults) as (D0 & D1 & D2 & D3 & D4).
  { unfold hardcoded_defaults. rewrite !elem_of_cons. tauto. }
  rewrite (elem_of_app (slot_defines vars n)). intros [H|H].
  - apply elem_of_slot_defines in H as (i & _ & [H|H]); injection H as _ ->;
      eexists; (split; [by right|]); by apply Hget.
  - rewrite elem_of_app in H. unfold legacy_defines, fixed_defines in H.
    rewrite !elem_of_cons, !elem_of_nil in H.
    repeat (destruct H as [H|H]); try contradiction; injection H as _ ->;
      eexists; (split; [by (right + left)|]); auto.
Qed.

(** C9. When the script completes, every key it asks for (the slot keys
    of slots 1 to the slot count, the legacy pair and the seven fixed keys)
    has a define among those appended, nothing else is appended, and every
    appended value is, bare or quoted, a value of the table or one of the
    defaults written in the script. *)
Theorem C9_every_requested_key_is_defined path env env' :
  load_env path env = Ok (tt, env') →
  ∃ (vars : EnvTable) n defs,
    _parse_env_file path = Ok vars
    ∧ int (get vars (lit "WIFI_SLOTS_MAX") (lit "10")) = Ok n
    ∧ env' = env ++ defs
    ∧ (∀ key, key ∈ requested_keys n → ∃ v, (key, v) ∈ defs)
    ∧ (∀ key v, (key, v) ∈ defs →
         key ∈ requested_keys n
         ∧ ∃ val, (v = val ∨ v = quoted val)
                  ∧ ((∃ k, vars !! k = Some val) ∨ val ∈ hardcoded_defaults)).
Proof.
  rewrite load_env_run.
  destruct (_parse_env_file path) as [vars|]; [|done].
  destruct (int _) as [n|] eqn:En; [|done].
  intros [= <-]. exists vars, n. eexists. repeat split; [done|..].
  - intros key. rewrite <-(names_run vars n).
    intros ([k v] & -> & H)%list_elem_of_fmap. by exists v.
  - rewrite <-(names_run vars n). by apply (list_elem_of_fmap_2 fst) in H.
  - by apply define_source in H.
Qed.

Lemma C9_witness :
  ∃ (vars : EnvTable) n defs,
    _parse_env_file Missing = Ok vars
    ∧ int (get vars (lit "WIFI_SLOTS_MAX") (lit "10")) = Ok n
    ∧ [] ++ slot_defines ∅ 10 ++ legacy_defines ∅ ++ fixed_defines ∅ = [] ++ defs
    ∧ (∀ key, key ∈ requested_keys n → ∃ v, (key, v) ∈ defs)
    ∧ (∀ key v, (key, v) ∈ defs →
         key ∈ requested_keys n
         ∧ ∃ val, (v = val ∨ v = quoted val)
                  ∧ ((∃ k, vars !! k = Some val) ∨ val ∈ hardcoded_defaults)).
Proof.
  apply (C9_every_requested_key_is_defined Missing []). reflexivity.
Defined.

(** *** A slot count of zero or less *)

(** C10. When the value of [WIFI_SLOTS_MAX] reads as zero or a negative
    number the loop runs no iteration: no [WIFI_SSID{i}] and no
    [WIFI_PASS{i}] is defined. The legacy pair and the seven fixed keys are
    defined all the same, and when the table has no [WIFI_SSID] the legacy
    [WIFI_SSID] takes the table's value of [WIFI_SSID1], a key that is
    itself not defined. *)
Theorem C10_no_slot_when_count_is_not_positive
    (path : Path) (env : CppDefines) (vars : EnvTable) (n : Z) :
  _parse_env_file path = Ok vars →
  int (get vars (lit "WIFI_SLOTS_MAX") (lit "10")) = Ok n →
  (n ≤ 0)%Z →
  ∃ defs,
    load_env path env = Ok (tt, env ++ defs)
    ∧ names defs
      = [ lit "WIFI_SSID"; lit "WIFI_PASS";
          lit "MQTT_HOST_ONLINE"; lit "MQTT_HOST_OFFLINE"; lit "MQTT_PORT";
          lit "BACKEND_BASE"; lit "BACKEND_HOST"; lit "BACKEND_PORT";
          lit "DEVICE_ID" ]
    ∧ (∀ i, (slot_key "WIFI_SSID" i ∉ names defs)
            ∧ (slot_key "WIFI_PASS" i ∉ names defs))
    ∧ (∀ s, vars !! lit "WIFI_SSID" = None →
            vars !! lit "WIFI_SSID1" = Some s →
            (lit "WIFI_SSID", quoted s) ∈ defs
            ∧ (lit "WIFI_SSID1" ∉ names defs))
    ∧ (∀ s, vars !! lit "WIFI_PASS" = None →
            vars !! lit "WIFI_PASS1" = Some s →
            (lit "WIFI_PASS", quoted s) ∈ defs
            ∧ (lit "WIFI_PASS1" ∉ names defs)).
Proof.
  intros Hp Hn Hle. exists (legacy_defines vars ++ fixed_defines vars).
  rewrite load_env_run, Hp, Hn, slot_defines_nil by done.
  split; [done|]. split; [reflexivity|]. split; [|split].
  - apply slot_key_not_legacy_or_fixed.
  - intros s H0 H1. split.
    + apply elem_of_app. left. unfold legacy_defines, legacy_by_script.
      rewrite H0, (get_Some _ _ _ _ H1). by left.
    + apply (slot_key_not_legacy_or_fixed vars 1).
  - intros s H0 H1. split.
    + apply elem_of_app. left. unfold legacy_defines, legacy_by_script.
      rewrite H0, (get_Some _ _ _ _ H1). right. by left.
    + apply (slot_key_not_legacy_or_fixed vars 1).
Qed.

Lemma C10_witness :
  ∃ defs,
    load_env zero_slots_file [] = Ok (tt, [] ++ defs)
    ∧ names defs
      = [ lit "WIFI_SSID"; lit "WIFI_PASS";
          lit "MQTT_HOST_ONLINE"; lit "MQTT_HOST_OFFLINE"; lit "MQTT_PORT";
          lit "BACKEND_BASE"; lit "BACKEND_HOST"; lit "BACKEND_PORT";
          lit "DEVICE_ID" ]
    ∧ (∀ i, (slot_key "WIFI_SSID" i ∉ names defs)
            ∧ (slot_key "WIFI_PASS" i ∉ names defs))
    ∧ (∀ s, ({[ lit "WIFI_SLOTS_MAX" := lit "0"; lit "WIFI_SSID1" := lit "MyNet" ]}
               : EnvTable) !! lit "WIFI_SSID" = None →
            ({[ lit "WIFI_SLOTS_MAX" := lit "0"; lit "WIFI_SSID1" := lit "MyNet" ]}
               : EnvTable) !! lit "WIFI_SSID1" = Some s →
            (lit "WIFI_SSID", quoted s) ∈ defs
            ∧ (lit "WIFI_SSID1" ∉ names defs))
    ∧ (∀ s, ({[ lit "WIFI_SLOTS_MAX" := lit "0"; lit "WIFI_SSID1" := lit "MyNet" ]}
               : EnvTable) !! lit "WIFI_PASS" = None →
            ({[ lit "WIFI_SLOTS_MAX" := lit "0"; lit "WIFI_SSID1" := lit "MyNet" ]}
               : EnvTable) !! lit "WIFI_PASS1" = Some s →
            (lit "WIFI_PASS", quoted s) ∈ defs
            ∧ (lit "WIFI_PASS1" ∉ names defs)).
Proof.
  apply (C10_no_slot_when_count_is_not_positive zero_slots_file []
           {[ lit "WIFI_SLOTS_MAX" := lit "0"; lit "WIFI_SSID1" := lit "MyNet" ]}
           0%Z); [reflexivity|reflexivity|lia].
Defined.

(** ** Further properties of the parser *)

(** Induction on byte strings by length, for the decoder, which reads one
    to four bytes at a time. *)
Lemma bytes_length_ind (P : bytes → Prop) :
  (∀ bs, (∀ bs', length bs' < length bs → P bs') → P bs) → ∀ bs, P bs.
Proof.
  intros H bs. remember (length bs) as n eqn:En.
  revert bs En. induction n as [n IH] using lt_wf_ind.
  intros bs ->. apply H. intros bs' Hlt. by apply (IH (length bs')).
Qed.





Lemma line_entry_well_formed raw k v :
  line_entry raw = Some (k, v) → well_formed_key k ∧ well_formed_value v.
Proof.
  unfold line_entry, first_nonspace.
  destruct (head (lstrip_by isspace raw)) as [c|] eqn:Ec; [|done].
  destruct (c =? HASH)%N eqn:Eh; [done|].
  destruct (partition_first EQUALS raw) as [[a b]|] eqn:Ep; [|done].
  intros [= <- <-]. apply partition_first_Some in Ep as [-> Ha].
  split; [split; [|split]|].
  - apply strip_by_is_edge_free.
  - rewrite <-contains_elem_of.
    destruct (strip_by_split isspace a) as (pre & post & Hs & _ & _).
    fold (strip a) in Hs. rewrite Hs, !contains_app in Ha.
    apply orb_false_iff in Ha as [_ Ha]. apply orb_false_iff in Ha as [Ha _].
    by rewrite Ha.
  - unfold strip. rewrite strip_by_head. rewrite lstrip_by_app in Ec.
    destruct (forallb isspace a) eqn:Ea.
    + apply lstrip_by_nil in Ea. by rewrite Ea.
    + destruct (lstrip_by isspace a) as [|x l]; [done|]. simpl in *.
      injection Ec as ->. intros [= ->]. by rewrite N.eqb_refl in Eh.
  - unfold well_formed_value, strip_quotes, strip_chars.
    rewrite <-(edge_free_ext _ _ _ (in_singleton_eqb SQUOTE)).
    apply strip_by_is_edge_free.
Qed.

Lemma parse_lines_forall (P : str → str → Prop) (lines : list str)
    (data tbl : EnvTable) :
  (∀ raw k v, line_entry raw = Some (k, v) → P k v) →
  map_Forall P data → parse_lines lines data = Ok tbl → map_Forall P tbl.
Proof.
  intros HP. revert data. induction lines as [|raw rest IH]; intros data Hd.
  - by intros [= <-].
  - simpl. rewrite parse_line_entry. simpl. apply IH.
    destruct (line_entry raw) as [[k v]|] eqn:E; [|done].
    apply map_Forall_insert_2; [|done]. by apply (HP raw).
Qed.

(** X2. Every entry of the table the parser returns has a key with no
    white space at either end, no [=] in it and no [#] in front, and a
    value with no single quote at either end. (The key may be empty, and
    the value may still begin or end with white space or a double quote
    that the quotes protected.) *)
Theorem X2_table_entries_are_trimmed
    (path : Path) (tbl : EnvTable) (key v : str) :
  _parse_env_file path = Ok tbl → tbl !! key = Some v →
  well_formed_key key ∧ well_formed_value v.
Proof.
  intros Hp Hl. revert key v Hl.
  change (map_Forall (λ k v, well_formed_key k ∧ well_formed_value v) tbl).
  destruct path as [|bs]; unfold _parse_env_file in Hp; simpl in Hp.
  - injection Hp as <-. apply map_Forall_empty.
  - destruct (read_text bs) as [text|]; [|done]. simpl in Hp.
    eapply parse_lines_forall; [|apply map_Forall_empty|exact Hp].
    apply line_entry_well_formed.
Qed.

Lemma X2_witness :
  well_formed_key (lit "A B") ∧ well_formed_value (lit " x ").
Proof.
  apply (X2_table_entries_are_trimmed
           (File (blit " A B = ' x ' "))
           {[ lit "A B" := lit " x " ]}); reflexivity.
Defined.

Lemma first_nonspace_around_equals k ws rest rest' :
  forallb isspace ws = true →
  first_nonspace (k ++ ws ++ EQUALS :: rest) = first_nonspace (k ++ EQUALS :: rest').
Proof.
  intros Hws. unfold first_nonspace. rewrite !(lstrip_by_app isspace k).
  destruct (forallb isspace k) eqn:Ek.
  - by rewrite lstrip_by_app, Hws.
  - destruct (lstrip_by isspace k) as [|c r] eqn:E; [|done].
    apply lstrip_by_nil in E. congruence.
Qed.

(** X3. White space does not count: indenting a line or leaving white
    space at its end changes nothing, and neither does white space on
    either side of the first [=]. *)
Theorem X3_whitespace_around_key_and_value_is_ignored :
  (∀ (data : EnvTable) pre raw post,
     forallb isspace pre = true → forallb isspace post = true →
     parse_line data (pre ++ raw ++ post) = parse_line data raw)
  ∧ (∀ (data : EnvTable) k ws1 ws2 v,
       EQUALS ∉ k →
       forallb isspace ws1 = true → forallb isspace ws2 = true →
       parse_line data (k ++ ws1 ++ EQUALS :: ws2 ++ v)
       = parse_line data (k ++ EQUALS :: v)).
Proof.
  split.
  - intros data pre raw post Hpre Hpost. unfold parse_line.
    by rewrite strip_app_l, strip_app_r.
  - intros data k ws1 ws2 v Hk H1 H2. rewrite !parse_line_entry.
    f_equal. unfold line_entry.
    rewrite (first_nonspace_around_equals k ws1 (ws2 ++ v) v H1).
    destruct (first_nonspace (k ++ EQUALS :: v)) as [c|]; [|done].
    destruct (c =? HASH)%N; [done|].
    assert (contains EQUALS k = false) as Hk'.
    { rewrite <-contains_elem_of in Hk. by destruct (contains EQUALS k). }
    rewrite (app_assoc k ws1), !partition_first_app.
    + by rewrite strip_app_r, strip_app_l.
    + done.
    + rewrite contains_app, Hk'.
      by rewrite (contains_false_of_forallb isspace).
Qed.

Lemma X3_witness :
  parse_line ∅ (lit "  " ++ lit "A=1" ++ lit "  ") = parse_line ∅ (lit "A=1")
  ∧ parse_line ∅ (lit "A" ++ lit " " ++ EQUALS :: lit "  " ++ lit "1")
    = parse_line ∅ (lit "A" ++ EQUALS :: lit "1").
Proof.
  destruct X3_whitespace_around_key_and_value_is_ignored as [H1 H2].
  split.
  - apply H1; reflexivity.
  - apply H2; [not_in_str|reflexivity..].
Defined.

(** X4. Blank lines, comment lines and lines without [=] can stand
    anywhere in the file: taking such a line out, or putting one in,
    leaves the table as it was. *)
Theorem X4_skipped_lines_do_not_matter
    (l1 l2 : list str) (raw : str) (data : EnvTable) :
  first_nonspace raw = None ∨ first_nonspace raw = Some HASH ∨ EQUALS ∉ raw →
  parse_lines (l1 ++ raw :: l2) data = parse_lines (l1 ++ l2) data.
Proof.
  intros H%line_entry_skipped. rewrite !parse_lines_fold, !foldl_app.
  simpl. by rewrite H.
Qed.

Lemma X4_witness :
  parse_lines ([lit "A=1"] ++ lit "# B=2" :: [lit "C=3"]) ∅
  = parse_lines ([lit "A=1"] ++ [lit "C=3"]) ∅.
Proof.
  apply X4_skipped_lines_do_not_matter. right; left. reflexivity.
Defined.

(** X5. The order of the lines matters only between lines with the same
    key: two neighbouring kept lines with different keys can be swapped,
    and a line written twice in a row counts once. *)
Theorem X5_lines_with_different_keys_commute :
  (∀ (l1 l2 : list str) (a b : str) (data : EnvTable) k1 v1 k2 v2,
     line_entry a = Some (k1, v1) → line_entry b = Some (k2, v2) → k1 ≠ k2 →
     parse_lines (l1 ++ a :: b :: l2) data
     = parse_lines (l1 ++ b :: a :: l2) data)
  ∧ (∀ (l1 l2 : list str) (a : str) (data : EnvTable),
       parse_lines (l1 ++ a :: a :: l2) data = parse_lines (l1 ++ a :: l2) data).
Proof.
  split.
  - intros l1 l2 a b data k1 v1 k2 v2 Ha Hb Hne.
    rewrite !parse_lines_fold, !foldl_app. simpl. rewrite Ha, Hb.
    by rewrite insert_insert_ne.
  - intros l1 l2 a data. rewrite !parse_lines_fold, !foldl_app. simpl.
    destruct (line_entry a) as [[k v]|]; [|done].
    by rewrite insert_insert_eq.
Qed.

Lemma X5_witness :
  parse_lines ([] ++ lit "A=1" :: lit "B=2" :: [lit "A=3"]) ∅
  = parse_lines ([] ++ lit "B=2" :: lit "A=1" :: [lit "A=3"]) ∅.
Proof.
  destruct X5_lines_with_different_keys_commute as [H _].
  apply (H [] _ _ _ ∅ (lit "A") (lit "1") (lit "B") (lit "2"));
    [reflexivity|reflexivity|discriminate].
Defined.

Lemma parse_lines_dom (lines : list str) (data tbl : EnvTable) :
  parse_lines lines data = Ok tbl →
  dom tbl = dom data ∪ list_to_set (entry_keys lines).
Proof.
  rewrite parse_lines_fold. intros [= <-].
  revert data. induction lines as [|raw rest IH]; intros data.
  - simpl. set_solver.
  - simpl. rewrite IH. unfold entry_keys. simpl.
    fold (entry_keys rest).
    destruct (line_entry raw) as [[k v]|]; simpl; [|done].
    rewrite dom_insert_L. set_solver.
Qed.

(** X6. The keys of the table are the keys of the kept lines, no more and
    no fewer: nothing but a kept line puts a key in, and no line takes a
    key out. A missing file gives no key at all. *)
Theorem X6_table_keys_are_the_kept_keys :
  (∀ bs text, read_text bs = Ok text →
     ∃ tbl : EnvTable,
       _parse_env_file (File bs) = Ok tbl
       ∧ dom tbl = list_to_set (entry_keys (splitlines text)))
  ∧ (∀ tbl : EnvTable, _parse_env_file Missing = Ok tbl → dom tbl = ∅)
  ∧ (∀ (lines : list str) (data tbl : EnvTable),
       parse_lines lines data = Ok tbl → dom data ⊆ dom tbl).
Proof.
  split; [|split].
  - intros bs text Hread. unfold _parse_env_file. simpl. rewrite Hread. simpl.
    destruct (parse_lines (splitlines text) ∅) as [tbl|] eqn:E.
    + exists tbl. split; [done|]. apply parse_lines_dom in E.
      rewrite E, dom_empty_L. set_solver.
    + by rewrite parse_lines_fold in E.
  - intros tbl [= <-]. apply dom_empty_L.
  - intros lines data tbl H%parse_lines_dom. set_solver.
Qed.

Lemma X6_witness :
  (∃ tbl : EnvTable,
     _parse_env_file (File (file_of_lines [blit "A=1"; blit "#B=2"; blit "C"])) = Ok tbl
     ∧ dom tbl
       = list_to_set (entry_keys
           (splitlines (lit "A=1" ++ [10%N] ++ lit "#B=2" ++ [10%N] ++ lit "C" ++ [10%N]))))
  ∧ dom (∅ : EnvTable) = ∅
  ∧ dom ({[ lit "Z" := [] ]} : EnvTable) ⊆ dom ({[ lit "Z" := []; lit "A" := lit "1" ]} : EnvTable).
Proof.
  destruct X6_table_keys_are_the_kept_keys as (H1 & H2 & H3).
  split; [|split].
  - apply H1. reflexivity.
  - apply H2. reflexivity.
  - apply (H3 [lit "A=1"]). reflexivity.
Defined.

(** *** Line endings *)

Lemma utf8_decode_app a b s :
  utf8_decode a = Ok s →
  utf8_decode (a ++ b) = rbind (utf8_decode b) (λ t, Ok (s ++ t)).
Proof.
  revert s. induction a as [a IH] using bytes_length_ind. intros s.
  destruct a as [|b0 r0].
  { intros [= <-]. simpl. by destruct (utf8_decode b). }
  rewrite <-app_comm_cons. cbn [utf8_decode].
  repeat match goal with
         | |- context [if ?c then _ else _] => destruct c
         | |- context [match ?l with [] => _ | _ :: _ => _ end] =>
             is_var l; destruct l; [by intros [=]|]; rewrite <-?app_comm_cons
         end;
    try (by intros [=]);
    match goal with
    | |- rbind (utf8_decode ?r) _ = _ → _ =>
        destruct (utf8_decode r) as [s'|] eqn:E; [|by intros [=]];
        simpl; intros [= <-];
        rewrite (IH r) with (s := s') by (simpl; lia || done);
        by destruct (utf8_decode b)
    end.
Qed.

(** Reading [\r\n] and [\r] as [\n] does not change the lines. *)
Lemma splitlines_from_translate b s :
  splitlines_from false (translate_newlines b s) = splitlines_from b s.
Proof.
  revert b. induction s as [|c r IH]; intros b; [done|]. simpl.
  destruct (b && (c =? 10)%N) eqn:E1; [apply IH|].
  destruct (N.eqb_spec c 13) as [->|Hc].
  - simpl. by rewrite IH.
  - simpl. destruct (is_linebreak c) eqn:E2.
    + apply N.eqb_neq in Hc. by rewrite Hc, IH.
    + by rewrite IH.
Qed.

Lemma splitlines_from_after_cr s :
  head s ≠ Some 10%N → splitlines_from true s = splitlines_from false s.
Proof.
  destruct s as [|c r]; [done|]. simpl. intros H.
  destruct (N.eqb_spec c 10) as [->|]; [done|done].
Qed.

Lemma one_line_head t rest c :
  one_line t = true → is_linebreak c = false ∨ c ≠ 10%N →
  head (t ++ c :: rest) ≠ Some 10%N.
Proof.
  destruct t as [|x t]; simpl.
  - intros _ [Hc|Hc] [= ->]; done.
  - intros [Hx _]%andb_true_iff _ [= ->]. done.
Qed.

(** A text without line boundary, then a line boundary: one line. *)
Lemma splitlines_from_line b t c rest :
  one_line t = true → is_linebreak c = true →
  (b = true → head (t ++ [c]) ≠ Some 10%N) →
  splitlines_from b (t ++ c :: rest) = t :: splitlines_from (c =? 13)%N rest.
Proof.
  intros Ht Hc. revert b. induction t as [|x t IH]; intros b Hb.
  - simpl. destruct b; simpl; [|by rewrite Hc].
    destruct (N.eqb_spec c 10) as [->|]; [by destruct Hb|]. by rewrite Hc.
  - simpl in Ht. apply andb_true_iff in Ht as [Hx Ht].
    apply negb_true_iff in Hx. simpl.
    assert ((x =? 10)%N = false) as ->.
    { destruct (N.eqb_spec x 10) as [->|]; done. }
    rewrite andb_false_r, Hx. by rewrite IH.
Qed.

Lemma splitlines_from_last b t :
  one_line t = true → (b = true → head t ≠ Some 10%N) →
  splitlines_from b t = if truthy t then [t] else [].
Proof.
  intros Ht. revert b. induction t as [|x t IH]; intros b Hb; [done|].
  simpl in Ht. apply andb_true_iff in Ht as [Hx Ht].
  apply negb_true_iff in Hx. simpl.
  assert ((x =? 10)%N = false) as ->.
  { destruct (N.eqb_spec x 10) as [->|]; done. }
  rewrite andb_false_r, Hx, IH by done. by destruct t.
Qed.

(** The lines of a text made of one-line pieces, each ended by one of the
    three line endings, and of a last piece without ending. *)
Lemma splitlines_join (eol : str) (texts : list str) (tlast : str) :
  eol ∈ [ [10%N]; [13%N; 10%N]; [13%N] ] →
  Forall (λ t, one_line t = true) texts → one_line tlast = true →
  splitlines (flat_map (λ t, t ++ eol) texts ++ tlast)
  = texts ++ (if truthy tlast then [tlast] else []).
Proof.
  intros Heol Htexts Hlast. unfold splitlines.
  assert (∀ t, one_line t = true → head t ≠ Some 10%N) as Hhead.
  { intros [|x t]; [done|]. simpl. intros [Hx _]%andb_true_iff [= ->]. done. }
  induction Htexts as [|t texts Ht Htexts IH].
  - simpl. by apply splitlines_from_last.
  - cbn [flat_map]. rewrite <-!app_assoc.
    rewrite !elem_of_cons, elem_of_nil in Heol.
    destruct Heol as [->|[->|[->|[]]]]; simpl app.
    + rewrite splitlines_from_line by done. simpl. by rewrite IH.
    + rewrite splitlines_from_line by done. simpl. by rewrite IH.
    + rewrite splitlines_from_line by done. simpl.
      rewrite splitlines_from_after_cr; [by rewrite IH|].
      destruct Htexts as [|t' texts' Ht' _]; simpl.
      * by apply Hhead.
      * cbn [flat_map]. rewrite <-!app_assoc. simpl.
        apply one_line_head; [done|by right].
Qed.

Lemma utf8_decode_join (eol : bytes) (eol_text : str)
    (lines : list bytes) (texts : list str) :
  utf8_decode eol = Ok eol_text →
  Forall2 (λ l t, utf8_decode l = Ok t) lines texts →
  utf8_decode (join_lines eol lines) = Ok (flat_map (λ t, t ++ eol_text) texts).
Proof.
  intros Heol H. unfold join_lines. induction H as [|l t lines texts Hl _ IH].
  - done.
  - cbn [flat_map]. rewrite <-app_assoc.
    rewrite (utf8_decode_app l _ t Hl), (utf8_decode_app eol _ eol_text Heol), IH.
    simpl. by rewrite <-app_assoc.
Qed.

(** X7. The three line endings give the same table. When every line of
    the file is valid UTF-8 without line boundary inside, and the lines are
    ended by line feeds, by carriage return and line feed, or by carriage
    returns, with or without an ending after the last line, the parser
    returns what the loop over these lines returns. *)
Theorem X7_line_endings_do_not_matter
    (eol : bytes) (lines : list bytes) (texts : list str)
    (last_line : bytes) (tlast : str) :
  eol ∈ line_endings →
  Forall2 (λ l t, utf8_decode l = Ok t) lines texts →
  Forall (λ t, one_line t = true) texts →
  utf8_decode last_line = Ok tlast → one_line tlast = true →
  _parse_env_file (File (join_lines eol lines ++ last_line))
  = parse_lines (texts ++ [tlast]) ∅
  ∧ (tlast = [] → _parse_env_file (File (join_lines eol lines ++ last_line))
                  = parse_lines texts ∅).
Proof.
  intros Heol Hlines Htexts Hlast Hone.
  assert (∃ eol_text, utf8_decode eol = Ok eol_text
                      ∧ eol_text ∈ [ [10%N]; [13%N; 10%N]; [13%N] ])
    as (eol_text & Hdec & Hin).
  { unfold line_endings in Heol. rewrite !elem_of_cons, elem_of_nil in Heol.
    destruct Heol as [->|[->|[->|[]]]]; eexists; (split; [reflexivity|]);
      rewrite !elem_of_cons; tauto. }
  assert (_parse_env_file (File (join_lines eol lines ++ last_line))
          = parse_lines (texts ++ (if truthy tlast then [tlast] else [])) ∅)
    as ->.
  { unfold _parse_env_file, path_read_text, read_text. simpl.
    rewrite (utf8_decode_app _ _ _ (utf8_decode_join _ _ _ _ Hdec Hlines)).
    rewrite Hlast. simpl. unfold splitlines.
    rewrite splitlines_from_translate. fold (splitlines
      (flat_map (λ t, t ++ eol_text) texts ++ tlast)).
    by rewrite splitlines_join. }
  destruct tlast as [|c tlast]; simpl.
  - rewrite app_nil_r. split; [|done].
    rewrite !parse_lines_fold, foldl_app. done.
  - split; [done|discriminate].
Qed.

Lemma X7_witness :
  _parse_env_file
    (File (join_lines [x0d; x0a] [blit "A=1"; blit ""; blit "B=2"] ++ blit "C=3"))
  = parse_lines ([lit "A=1"; lit ""; lit "B=2"] ++ [lit "C=3"]) ∅
  ∧ (lit "C=3" = [] →
     _parse_env_file
       (File (join_lines [x0d; x0a] [blit "A=1"; blit ""; blit "B=2"] ++ blit "C=3"))
     = parse_lines [lit "A=1"; lit ""; lit "B=2"] ∅).
Proof.
  apply X7_line_endings_do_not_matter;
    [unfold line_endings; rewrite !elem_of_cons; tauto
    |repeat constructor|repeat constructor|reflexivity|reflexivity].
Defined.

(** ** Further properties of the script's run *)

Lemma length_slot_defines (vars : EnvTable) n :
  length (slot_defines vars n) = 2 * Z.to_nat n.
Proof.
  unfold slot_defines. rewrite <-(length_seqZ 1 n).
  induction (seqZ 1 n) as [|i l IH]; simpl; [done|]. rewrite IH. lia.
Qed.

(** X8. The script only appends. The defines that the build environment
    held before are kept in place, what is appended does not depend on
    them, and a run that completes appends two defines per slot and nine
    more. *)
Theorem X8_script_only_appends :
  (∀ path env,
     load_env path env
     = match load_env path [] with
       | Ok (u, defs) => Ok (u, env ++ defs)
       | Raise e => Raise e
       end)
  ∧ (∀ path env env',
       load_env path env = Ok (tt, env') →
       ∃ (vars : EnvTable) n,
         _parse_env_file path = Ok vars
         ∧ int (get vars (lit "WIFI_SLOTS_MAX") (lit "10")) = Ok n
         ∧ take (length env) env' = env
         ∧ length env' = length env + 2 * Z.to_nat n + 9).
Proof.
  split.
  - intros path env. rewrite !load_env_run.
    destruct (_parse_env_file path) as [vars|]; [|done].
    by destruct (int _).
  - intros path env env'. rewrite load_env_run.
    destruct (_parse_env_file path) as [vars|]; [|done].
    destruct (int _) as [n|] eqn:En; [|done].
    intros [= <-]. exists vars, n. repeat split; [done|..].
    + by rewrite take_app_length.
    + rewrite !length_app, length_slot_defines. simpl. lia.
Qed.

Lemma X8_witness :
  ∃ (vars : EnvTable) n,
    _parse_env_file (File (blit "WIFI_SLOTS_MAX=1")) = Ok vars
    ∧ int (get vars (lit "WIFI_SLOTS_MAX") (lit "10")) = Ok n
    ∧ take (length [(lit "ARDUINO", lit "10805")])
        ([(lit "ARDUINO", lit "10805")]
         ++ slot_defines {[ lit "WIFI_SLOTS_MAX" := lit "1" ]} 1
         ++ legacy_defines {[ lit "WIFI_SLOTS_MAX" := lit "1" ]}
         ++ fixed_defines {[ lit "WIFI_SLOTS_MAX" := lit "1" ]})
      = [(lit "ARDUINO", lit "10805")]
    ∧ length ([(lit "ARDUINO", lit "10805")]
              ++ slot_defines {[ lit "WIFI_SLOTS_MAX" := lit "1" ]} 1
              ++ legacy_defines {[ lit "WIFI_SLOTS_MAX" := lit "1" ]}
              ++ fixed_defines {[ lit "WIFI_SLOTS_MAX" := lit "1" ]})
      = length [(lit "ARDUINO", lit "10805")] + 2 * Z.to_nat n + 9.
Proof.
  destruct X8_script_only_appends as [_ H].
  apply (H (File (blit "WIFI_SLOTS_MAX=1"))). reflexivity.
Defined.

Lemma NoDup_slot_keys (l : list Z) :
  NoDup l →
  NoDup (flat_map (λ i, [slot_key "WIFI_SSID" i; slot_key "WIFI_PASS" i]) l).
Proof.
  induction 1 as [|i l Hi Hl IH]; simpl; [constructor|].
  assert (∀ prefix, slot_key prefix i
            ∈ flat_map (λ i, [slot_key "WIFI_SSID" i; slot_key "WIFI_PASS" i]) l →
            prefix = "WIFI_SSID"%string ∨ prefix = "WIFI_PASS"%string → False)
    as Hfresh.
  { intros prefix Hin Hprefix. apply list_elem_of_In, in_flat_map in Hin.
    destruct Hin as (j & Hj%list_elem_of_In & Hin%list_elem_of_In).
    rewrite !elem_of_cons, elem_of_nil in Hin.
    destruct Hin as [Hk|[Hk|[]]], Hprefix as [->| ->].
    - apply slot_key_inj in Hk as ->. done.
    - symmetry in Hk. by apply slot_key_ssid_pass in Hk.
    - by apply slot_key_ssid_pass in Hk.
    - apply slot_key_inj in Hk as ->. done. }
  constructor; [|constructor; [|done]].
  - rewrite elem_of_cons. intros [Hk|Hin].
    + by apply slot_key_ssid_pass in Hk.
    + apply (Hfresh "WIFI_SSID"%string); auto.
  - intros Hin. apply (Hfresh "WIFI_PASS"%string); auto.
Qed.

(** X9. A run that completes defines no name twice: the slot names, the
    legacy pair and the fixed keys are all different, so the defines that
    the script appends never redefine one another. *)
Theorem X9_no_name_is_defined_twice (path : Path) (defs : CppDefines) :
  load_env path [] = Ok (tt, defs) → NoDup (names defs).
Proof.
  rewrite load_env_run.
  destruct (_parse_env_file path) as [vars|]; [|done].
  destruct (int _) as [n|]; [|done].
  intros [= <-]. simpl. rewrite names_run. unfold requested_keys.
  apply NoDup_app. split; [|split].
  - apply NoDup_slot_keys, NoDup_seqZ.
  - intros key Hin%list_elem_of_In%in_flat_map.
    destruct Hin as (i & _ & Hin%list_elem_of_In).
    destruct (slot_key_not_legacy_or_fixed vars i) as [H1 H2].
    rewrite !elem_of_cons, elem_of_nil in Hin.
    destruct Hin as [->|[->|[]]]; [exact H1|exact H2].
  - apply (bool_decide_unpack _). by vm_compute.
Qed.

Lemma X9_witness :
  NoDup (names (slot_defines ∅ 10 ++ legacy_defines ∅ ++ fixed_defines ∅)).
Proof. apply (X9_no_name_is_defined_twice Missing). reflexivity. Defined.

Lemma get_agree (vars1 vars2 : EnvTable) key dflt :
  vars1 !! key = vars2 !! key → get vars1 key dflt = get vars2 key dflt.
Proof. unfold get. by intros ->. Qed.

Lemma slot_defines_agree (vars1 vars2 : EnvTable) n :
  (∀ key, key ∈ requested_keys n → vars1 !! key = vars2 !! key) →
  slot_defines vars1 n = slot_defines vars2 n.
Proof.
  unfold requested_keys, slot_defines. intros H.
  assert (∀ key,
    key ∈ flat_map (λ i, [slot_key "WIFI_SSID" i; slot_key "WIFI_PASS" i])
            (seqZ 1 n) → vars1 !! key = vars2 !! key) as H'.
  { intros key Hk. apply H, elem_of_app. by left. }
  clear H. induction (seqZ 1 n) as [|i l IH]; [done|]. simpl in *.
  rewrite IH.
  - rewrite (get_agree vars1 vars2 (slot_key "WIFI_SSID" i)),
      (get_agree vars1 vars2 (slot_key "WIFI_PASS" i)); [done|..];
      apply H'; rewrite !elem_of_cons; auto.
  - intros key Hk. apply H'. rewrite !elem_of_cons. auto.
Qed.

(** X10. The defines depend on the table only through the keys the
    script reads: [WIFI_SLOTS_MAX], the slot names up to the slot count,
    the legacy pair with [WIFI_SSID1] and [WIFI_PASS1], and the seven fixed
    keys. Two files whose tables agree on these keys give the same run,
    whatever else they hold. *)
Theorem X10_only_the_keys_read_matter
    (p1 p2 : Path) (vars1 vars2 : EnvTable) (n : Z) (env : CppDefines) :
  _parse_env_file p1 = Ok vars1 → _parse_env_file p2 = Ok vars2 →
  int (get vars1 (lit "WIFI_SLOTS_MAX") (lit "10")) = Ok n →
  (∀ key, key ∈ keys_read n → vars1 !! key = vars2 !! key) →
  load_env p1 env = load_env p2 env.
Proof.
  intros H1 H2 Hn Hagree. rewrite !load_env_run, H1, H2.
  assert (∀ k, k ∈ [ lit "WIFI_SLOTS_MAX"; lit "WIFI_SSID1"; lit "WIFI_PASS1";
                     lit "WIFI_SSID"; lit "WIFI_PASS";
                     lit "MQTT_HOST_ONLINE"; lit "MQTT_HOST_OFFLINE";
                     lit "MQTT_PORT"; lit "BACKEND_BASE"; lit "BACKEND_HOST";
                     lit "BACKEND_PORT"; lit "DEVICE_ID" ] →
               vars1 !! k = vars2 !! k) as Hfix.
  { intros k Hk. apply Hagree. unfold keys_read, requested_keys.
    rewrite !elem_of_app. rewrite !elem_of_cons in Hk |- *. tauto. }
  rewrite <-(get_agree vars1 vars2 (lit "WIFI_SLOTS_MAX"))
    by (apply Hfix; rewrite !elem_of_cons; tauto).
  rewrite Hn.
  assert (slot_defines vars1 n = slot_defines vars2 n) as ->.
  { apply slot_defines_agree. intros key Hk. apply Hagree.
    unfold keys_read. apply elem_of_app. by right. }
  assert (legacy_defines vars1 = legacy_defines vars2) as ->.
  { unfold legacy_defines, legacy_by_script.
    rewrite (Hfix (lit "WIFI_SSID")), (Hfix (lit "WIFI_PASS")),
      (get_agree vars1 vars2 (lit "WIFI_SSID1")),
      (get_agree vars1 vars2 (lit "WIFI_PASS1"));
      [done|try apply Hfix; rewrite !elem_of_cons; tauto..]. }
  assert (fixed_defines vars1 = fixed_defines vars2) as ->; [|done].
  unfold fixed_defines.
  rewrite (get_agree vars1 vars2 (lit "MQTT_HOST_ONLINE")),
    (get_agree vars1 vars2 (lit "MQTT_HOST_OFFLINE")),
    (get_agree vars1 vars2 (lit "MQTT_PORT")),
    (get_agree vars1 vars2 (lit "BACKEND_BASE")),
    (get_agree vars1 vars2 (lit "BACKEND_HOST")),
    (get_agree vars1 vars2 (lit "BACKEND_PORT")),
    (get_agree vars1 vars2 (lit "DEVICE_ID"));
    [done|apply Hfix; rewrite !elem_of_cons; tauto..].
Qed.

Lemma X10_witness :
  load_env (File (file_of_lines [blit "DEVICE_ID=a"; blit "FOO=1"])) []
  = load_env (File (file_of_lines [blit "BAR=2"; blit "DEVICE_ID=a"])) [].
Proof.
  apply (X10_only_the_keys_read_matter _ _
           {[ lit "DEVICE_ID" := lit "a"; lit "FOO" := lit "1" ]}
           {[ lit "BAR" := lit "2"; lit "DEVICE_ID" := lit "a" ]} 10%Z);
    [reflexivity..|].
  apply Forall_forall. apply (bool_decide_unpack _). by vm_compute.
Defined.

(** X11. A key written with nothing after the [=] is in the table with
    the empty value, and a fixed key that is in the table never gets its
    default: its one define carries the table's value, quoted or (for the
    two integer keys) bare, also when that value is empty. *)
Theorem X11_present_key_overrides_default :
  (∀ (data : EnvTable) k c,
     first_nonspace (k ++ [EQUALS]) = Some c → c ≠ HASH → EQUALS ∉ k →
     parse_line data (k ++ [EQUALS]) = Ok (<[strip k := []]> data))
  ∧ (∀ (path : Path) (env : CppDefines) (vars : EnvTable) (n : Z) key v,
       _parse_env_file path = Ok vars →
       int (get vars (lit "WIFI_SLOTS_MAX") (lit "10")) = Ok n →
       key ∈ [ lit "MQTT_HOST_ONLINE"; lit "MQTT_HOST_OFFLINE";
               lit "MQTT_PORT"; lit "BACKEND_BASE"; lit "BACKEND_HOST";
               lit "BACKEND_PORT"; lit "DEVICE_ID" ] →
       vars !! key = Some v →
       ∃ defs,
         load_env path env = Ok (tt, env ++ defs)
         ∧ ∃ registered,
             registered
             = (if bool_decide (key ∈ [lit "MQTT_PORT"; lit "BACKEND_PORT"])
                then v else quoted v)
             ∧ (key, registered) ∈ defs
             ∧ ∀ v', (key, v') ∈ defs → v' = registered).
Proof.
  split.
  - intros data k c Hc Hne Hk. rewrite parse_line_entry.
    by rewrite (line_entry_kept _ c k [] Hc Hne eq_refl Hk).
  - intros path env vars n key v Hp Hn Hkey Hv.
    eexists. rewrite load_env_run, Hp, Hn. split; [done|].
    eexists. split; [done|].
    rewrite !elem_of_cons, elem_of_nil in Hkey.
    destruct Hkey as [->|[->|[->|[->|[->|[->|[->|[]]]]]]]];
      (split;
       [ rewrite !elem_of_app; right; right; unfold fixed_defines;
         rewrite (get_Some _ _ _ _ Hv), !elem_of_cons;
         repeat (first [left; reflexivity | right])
       | intros v' Hv'; apply named_define_unique in Hv'; [|named_key];
         named_define_cases Hv'; subst v';
         by rewrite (get_Some _ _ _ _ Hv) ]).
Qed.

Lemma X11_witness :
  parse_line ∅ (lit "DEVICE_ID" ++ [EQUALS]) = Ok (<[strip (lit "DEVICE_ID") := []]> ∅)
  ∧ ∃ defs,
      load_env (File (blit "MQTT_PORT=")) [] = Ok (tt, [] ++ defs)
      ∧ ∃ registered,
          registered
          = (if bool_decide (lit "MQTT_PORT" ∈ [lit "MQTT_PORT"; lit "BACKEND_PORT"])
             then [] else quoted [])
          ∧ (lit "MQTT_PORT", registered) ∈ defs
          ∧ ∀ v', (lit "MQTT_PORT", v') ∈ defs → v' = registered.
Proof.
  destruct X11_present_key_overrides_default as [H1 H2]. split.
  - apply (H1 ∅ _ 68%N); [reflexivity|discriminate|not_in_str].
  - apply (H2 _ _ {[ lit "MQTT_PORT" := [] ]} 10%Z); [reflexivity..| |reflexivity].
    rewrite !elem_of_cons. tauto.
Defined.

(** X12. Unless the table holds the legacy key with an empty value, the
    one define of [WIFI_SSID] is the quoted value of [WIFI_SSID] when it
    is set, else the quoted value of [WIFI_SSID1], empty when that is
    absent too; and the same for [WIFI_PASS] with [WIFI_PASS1]. *)
Theorem X12_legacy_value_falls_back_to_slot_one
    (path : Path) (env : CppDefines) (vars : EnvTable) (n : Z)
    (key key1 : string) :
  (key = "WIFI_SSID"%string ∧ key1 = "WIFI_SSID1"%string)
  ∨ (key = "WIFI_PASS"%string ∧ key1 = "WIFI_PASS1"%string) →
  _parse_env_file path = Ok vars →
  int (get vars (lit "WIFI_SLOTS_MAX") (lit "10")) = Ok n →
  vars !! lit key ≠ Some [] →
  ∃ defs,
    load_env path env = Ok (tt, env ++ defs)
    ∧ (lit key, quoted (legacy_by_document vars key key1)) ∈ defs
    ∧ ∀ v, (lit key, v) ∈ defs → v = quoted (legacy_by_document vars key key1).
Proof.
  intros Hkey Hp Hn Hne. eexists. rewrite load_env_run, Hp, Hn.
  split; [done|]. rewrite <-(legacy_readings_agree vars key key1 Hne).
  destruct Hkey as [[-> ->]|[-> ->]]; split.
  - rewrite !elem_of_app. right; left. unfold legacy_defines.
    rewrite !elem_of_cons. tauto.
  - intros v Hv. apply named_define_unique in Hv; [|named_key].
    named_define_cases Hv. by subst v.
  - rewrite !elem_of_app. right; left. unfold legacy_defines.
    rewrite !elem_of_cons. tauto.
  - intros v Hv. apply named_define_unique in Hv; [|named_key].
    named_define_cases Hv. by subst v.
Qed.

Lemma X12_witness :
  ∃ defs,
    load_env (File (blit "WIFI_PASS1=secret")) [] = Ok (tt, [] ++ defs)
    ∧ (lit "WIFI_PASS",
       quoted (legacy_by_document {[ lit "WIFI_PASS1" := lit "secret" ]}
                 "WIFI_PASS" "WIFI_PASS1")) ∈ defs
    ∧ ∀ v, (lit "WIFI_PASS", v) ∈ defs →
           v = quoted (legacy_by_document {[ lit "WIFI_PASS1" := lit "secret" ]}
                         "WIFI_PASS" "WIFI_PASS1").
Proof.
  apply (X12_legacy_value_falls_back_to_slot_one _ _ _ 10%Z);
    [by right|reflexivity|reflexivity|discriminate].
Defined.

(** *** The byte-order mark *)

Lemma splitlines_ZWNBSP text :
  splitlines (ZWNBSP :: text)
  = match splitlines text with
    | [] => [[ZWNBSP]]
    | l :: ls => (ZWNBSP :: l) :: ls
    end.
Proof. reflexivity. Qed.

(** X13. The file is decoded as plain UTF-8, so a byte-order mark at its
    start is not removed: it decodes to U+FEFF in front of the first line.
    U+FEFF is not white space, so when the first line has an [=] it is
    kept, also when it was meant as a comment, and the key it enters
    begins with U+FEFF: the key written in the file is not the key in the
    table. *)
Theorem X13_byte_order_mark_stays_in_first_key :
  (∀ bs text, read_text bs = Ok text →
              read_text (BOM ++ bs) = Ok (ZWNBSP :: text))
  ∧ (∀ (data : EnvTable) raw,
       EQUALS ∈ raw →
       ∃ k v, parse_line data (ZWNBSP :: raw) = Ok (<[ZWNBSP :: k := v]> data))
  ∧ (∀ bs text first rest,
       read_text bs = Ok text → splitlines text = first :: rest →
       EQUALS ∈ first →
       ∃ k v, _parse_env_file (File (BOM ++ bs))
              = parse_lines rest (<[ZWNBSP :: k := v]> ∅)).
Proof.
  assert (∀ bs text, read_text bs = Ok text →
                     read_text (BOM ++ bs) = Ok (ZWNBSP :: text)) as Hread.
  { intros bs text. unfold read_text.
    change (utf8_decode (BOM ++ bs))
      with (rbind (utf8_decode bs) (λ s, Ok (ZWNBSP :: s))).
    destruct (utf8_decode bs) as [s|]; [|done]. simpl. by intros [= <-]. }
  assert (∀ (data : EnvTable) raw,
            EQUALS ∈ raw →
            ∃ k v, parse_line data (ZWNBSP :: raw) = Ok (<[ZWNBSP :: k := v]> data))
    as Hline.
  { intros data raw Hin. rewrite parse_line_entry.
    assert (isspace ZWNBSP = false) as Hsp by reflexivity.
    assert ((ZWNBSP =? HASH)%N = false) as Hh by reflexivity.
    assert ((ZWNBSP =? EQUALS)%N = false) as He by reflexivity.
    unfold line_entry, first_nonspace. cbn [lstrip_by partition_first].
    rewrite Hsp. cbn [head]. rewrite Hh, He.
    destruct (partition_first EQUALS raw) as [[a b]|] eqn:Ep.
    - destruct (rstrip_by_cons_keep isspace ZWNBSP a Hsp) as [r Hr].
      exists r, (strip_quotes (strip b)). unfold strip at 1, strip_by.
      cbn [lstrip_by]. by rewrite Hsp, Hr.
    - apply partition_first_None in Ep. apply contains_elem_of in Hin.
      congruence. }
  split; [exact Hread|split; [exact Hline|]].
  intros bs text first rest Ht Hs Hin.
  destruct (Hline ∅ first Hin) as (k & v & Hkv). exists k, v.
  unfold _parse_env_file. cbn [exists_ negb path_read_text].
  rewrite (Hread bs text Ht). cbn [rbind].
  rewrite splitlines_ZWNBSP, Hs. cbn [parse_lines]. by rewrite Hkv.
Qed.

Lemma X13_witness :
  read_text (BOM ++ blit "A=1") = Ok (ZWNBSP :: lit "A=1")
  ∧ (∃ k v, parse_line ∅ (ZWNBSP :: lit "#A=1") = Ok (<[ZWNBSP :: k := v]> ∅))
  ∧ (∃ k v, _parse_env_file (File (BOM ++ file_of_lines [blit "WIFI_SLOTS_MAX=3"; blit "B=2"]))
            = parse_lines [lit "B=2"] (<[ZWNBSP :: k := v]> ∅)).
Proof.
  destruct X13_byte_order_mark_stays_in_first_key as (H1 & H2 & H3).
  split; [|split].
  - apply H1. reflexivity.
  - apply H2. apply contains_elem_of. reflexivity.
  - apply (H3 _ (lit "WIFI_SLOTS_MAX=3" ++ [10%N] ++ lit "B=2" ++ [10%N])
              (lit "WIFI_SLOTS_MAX=3") [lit "B=2"]); [reflexivity..|].
    apply contains_elem_of. reflexivity.
Defined.
